(** * sublib-cli: a shallow embedding of [sublib_cli.py]

    The command line front end of the Sublib package: it discovers subtitle
    files, asks [chardet] for their encoding and [sublib] for their format,
    and either reports the format or rewrites the file in another format.

    Python values are modelled as follows: [str] is [string], [bytes] is
    [list byte], an integer index is [Z], [None] is the [None] of an
    [option].  A raised exception is a value of [exn]; code that touches
    the disk, the log or the terminal runs in the monad [M], which threads
    the [World] and keeps it when an exception is raised. *)

From Stdlib Require Import String Ascii List ZArith Lia Bool.
From Stdlib Require Import Strings.Byte.
Import ListNotations.
Local Open Scope string_scope.
Local Open Scope Z_scope.

(** ** Python string primitives used by the script *)

Module Py.

(** [s.rfind(sub)]: the highest index at which [sub] starts, [-1] if none. *)
Fixpoint rfind_go (sub s : string) (i last : Z) : Z :=
  let last' := if prefix sub s then i else last in
  match s with
  | EmptyString => last'
  | String _ t => rfind_go sub t (i + 1) last'
  end.

Definition rfind (s sub : string) : Z := rfind_go sub s 0 (-1).

(** [s[:k]]: a negative bound counts from the end, and both are clamped. *)
Definition slice_to (s : string) (k : Z) : string :=
  let n := Z.of_nat (String.length s) in
  let stop := if k <? 0 then Z.max 0 (k + n) else Z.min k n in
  substring 0 (Z.to_nat stop) s.

(** [x in (a, b, ...)] on strings. *)
Definition str_in (x : string) (xs : list string) : bool :=
  existsb (String.eqb x) xs.

(** [s.replace(old, new)]: every non-overlapping occurrence, leftmost
    first.  [skip] counts the characters of a match still to be dropped.
    With an empty [old], [new] goes before every character and at the end. *)
Fixpoint replace_go (old new : string) (skip : nat) (s : string) : string :=
  match skip, s with
  | S k, String _ t => replace_go old new k t
  | S _, EmptyString => EmptyString
  | O, EmptyString => if prefix old EmptyString then new else EmptyString
  | O, String c t =>
      if prefix old s then
        match String.length old with
        | O => new ++ String c (replace_go old new 0 t)
        | S k => new ++ replace_go old new k t
        end
      else String c (replace_go old new 0 t)
  end.

Definition replace (s old new : string) : string := replace_go old new 0 s.

(** Does the character occur in the string? *)
Fixpoint has_char (c : ascii) (s : string) : bool :=
  match s with
  | EmptyString => false
  | String d t => Ascii.eqb d c || has_char c t
  end.

(** The string without its last character (the empty string stays empty). *)
Fixpoint drop_last (s : string) : string :=
  match s with
  | EmptyString => EmptyString
  | String c EmptyString => EmptyString
  | String c t => String c (drop_last t)
  end.

End Py.

(** ** The records passed between the functions of the script

    [main] builds one dict per input file with the keys ["path"],
    ["encoding"] and ["format"], and one per output file with the keys
    ["path"] and ["encoding"].  The encoding is whatever [chardet] answered,
    which may be [None]. *)

Record input_file := InputFile {
  in_path : string;
  in_encoding : option string;
  in_format : string
}.

Record output_file := OutputFile {
  out_path : string;
  out_encoding : option string
}.

(** The [choices] of the [form] argument of the [convert] sub-command. *)
Definition choices : list string := ["mpl"; "srt"; "sub"; "tmp"].

(** ** [get_new_path] *)

Definition get_new_path (file : input_file) (form : string) : string :=
  let path := in_path file in
  let path := Py.slice_to path (Py.rfind path ".") in
  if Py.str_in form ["mpl"; "tmp"] then path ++ ".txt"
  else if Py.str_in form ["srt"; "sub"] then path ++ "." ++ form
  else path.

(** The naming convention of the specification: MPlayer2 and TMPlayer
    targets use [txt], SubRip uses [srt], MicroDVD uses [sub]. *)
Definition canonical_extension (form : string) : string :=
  if String.eqb form "mpl" then "txt"
  else if String.eqb form "tmp" then "txt"
  else if String.eqb form "srt" then "srt"
  else if String.eqb form "sub" then "sub"
  else "".

(** ** Exceptions and results *)

Inductive exn :=
| SystemExit (message : string)
| UnboundLocalError (name : string)
| AttributeError (attribute : string)
| KeyError (key : string)
| IndexError
| OSError (path : string)
| EncodingError (encoding : option string)
| LibraryError (message : string).

(** [except Exception] catches everything but [SystemExit]. *)
Definition is_Exception (e : exn) : bool :=
  match e with
  | SystemExit _ => false
  | _ => true
  end.

Inductive result (A : Type) :=
| Ok (a : A)
| Raise (e : exn).
Arguments Ok {A} a.
Arguments Raise {A} e.

(** ** The directory tree

    A node of the tree is a regular file with its bytes, a directory with
    its named entries, or something else (a socket, a device node), which
    may or may not be readable.  Paths use the separator that [find_files]
    hard-codes; repeated separators are ignored and names are compared as
    they are written. *)

#[warnings="-register-all"]
Inductive node :=
| RegFile (data : list byte)
| Directory (entries : list (string * node))
| Special (readable : option (list byte)).

Definition sep : ascii := ascii_of_nat 92.
Definition sep_str : string := String sep EmptyString.
Definition newline : string := String (ascii_of_nat 10) EmptyString.

Module Disk.

(** [path.split(sep)] *)
Fixpoint split (path : string) : list string :=
  match path with
  | EmptyString => [EmptyString]
  | String c t =>
      if Ascii.eqb c sep then EmptyString :: split t
      else match split t with
           | [] => [String c EmptyString]
           | h :: r => String c h :: r
           end
  end.

Definition nonempty (s : string) : bool :=
  match s with EmptyString => false | _ => true end.

Definition components (path : string) : list string :=
  filter nonempty (split path).

Fixpoint assoc (name : string) (es : list (string * node)) : option node :=
  match es with
  | [] => None
  | (n, x) :: tl => if String.eqb n name then Some x else assoc name tl
  end.

Fixpoint set_entry (name : string) (x : node) (es : list (string * node))
  : list (string * node) :=
  match es with
  | [] => [(name, x)]
  | (n, y) :: tl =>
      if String.eqb n name then (n, x) :: tl else (n, y) :: set_entry name x tl
  end.

Fixpoint descend (names : list string) (n : node) : option node :=
  match names with
  | [] => Some n
  | c :: rest =>
      match n with
      | Directory es =>
          match assoc c es with
          | Some child => descend rest child
          | None => None
          end
      | _ => None
      end
  end.

(** The node a path names, if any; the empty path names nothing. *)
Definition resolve (root : node) (path : string) : option node :=
  if nonempty path then descend (components path) root else None.

Definition exists_ (root : node) (path : string) : bool :=
  match resolve root path with Some _ => true | None => false end.

Definition isfile (root : node) (path : string) : bool :=
  match resolve root path with Some (RegFile _) => true | _ => false end.

Definition isdir (root : node) (path : string) : bool :=
  match resolve root path with Some (Directory _) => true | _ => false end.

(** [open(path, "rb").read()] *)
Definition read (root : node) (path : string) : result (list byte) :=
  match resolve root path with
  | Some (RegFile data) => Ok data
  | Some (Special (Some data)) => Ok data
  | _ => Raise (OSError path)
  end.

(** Creating or truncating the file a path names and storing [data] in
    it: the parent must be a directory, the target must not be one. *)
Fixpoint store (names : list string) (data : list byte) (n : node)
  : option node :=
  match names with
  | [] =>
      match n with
      | RegFile _ => Some (RegFile data)
      | _ => None
      end
  | c :: rest =>
      match n with
      | Directory es =>
          match assoc c es with
          | Some child =>
              match store rest data child with
              | Some child' => Some (Directory (set_entry c child' es))
              | None => None
              end
          | None =>
              match rest with
              | [] => Some (Directory (set_entry c (RegFile data) es))
              | _ => None
              end
          end
      | _ => None
      end
  end.

Definition write (root : node) (path : string) (data : list byte)
  : result node :=
  if nonempty path then
    match store (components path) data root with
    | Some root' => Ok root'
    | None => Raise (OSError path)
    end
  else Raise (OSError path).

Definition is_directory (n : node) : bool :=
  match n with Directory _ => true | _ => false end.

Definition dirnames (es : list (string * node)) : list string :=
  map fst (filter (fun e => is_directory (snd e)) es).

Definition filenames (es : list (string * node)) : list string :=
  map fst (filter (fun e => negb (is_directory (snd e))) es).

(** [os.walk(top)] from the node [top] names: one triple
    [(dirpath, dirnames, filenames)] per directory, the top one first. *)
Fixpoint walk_node (top : string) (n : node)
  : list (string * list string * list string) :=
  match n with
  | Directory es =>
      (top, dirnames es, filenames es) ::
      (fix below (l : list (string * node)) :=
         match l with
         | [] => []
         | (name, child) :: tl =>
             (walk_node (top ++ sep_str ++ name) child ++ below tl)%list
         end) es
  | _ => []
  end.

Definition walk (root : node) (top : string)
  : list (string * list string * list string) :=
  match resolve root top with
  | Some n => walk_node top n
  | None => []
  end.

End Disk.

(** ** The world the script runs in

    The log file is a file of its own, kept apart from the tree [disk]:
    [logfile] holds the records of the file the handler appends to ([None]
    when it does not exist), [log_level] is the threshold given to
    [basicConfig], and [stdout] collects what [print] wrote.  Whether the
    host can open the log file is asked of the platform.  A statement
    about the files of [disk] therefore says nothing of the log file, and
    where the place of the log file matters (were it the path given on the
    command line, or a file of the directory that is scanned) the statement
    names that place and sets it aside. *)

Definition INFO : Z := 20.
Definition CRITICAL : Z := 50.

Record log_record := LogRecord {
  levelname : string;
  funcName : string;
  message : string
}.

Record World := mkWorld {
  disk : node;
  logfile : option (list log_record);
  log_level : Z;
  stdout : list string
}.

Definition with_disk (w : World) (d : node) : World :=
  mkWorld d (logfile w) (log_level w) (stdout w).

Definition with_logfile (w : World) (l : option (list log_record)) : World :=
  mkWorld (disk w) l (log_level w) (stdout w).

(** Computations that may raise and that change the world as they go. *)
Definition M (A : Type) : Type := World -> result A * World.

Definition ret {A} (a : A) : M A := fun w => (Ok a, w).

Definition raise {A} (e : exn) : M A := fun w => (Raise e, w).

Definition bind {A B} (m : M A) (k : A -> M B) : M B :=
  fun w =>
    match m w with
    | (Ok a, w') => k a w'
    | (Raise e, w') => (Raise e, w')
    end.

Definition lift {A} (r : result A) : M A := fun w => (r, w).

Definition get_disk : M node := fun w => (Ok (disk w), w).

Declare Scope py_scope.
Delimit Scope py_scope with py.
Notation "x <- m ;; k" := (bind m (fun x => k))
  (at level 61, m at next level, right associativity) : py_scope.
Notation "m ;; k" := (bind m (fun _ => k))
  (at level 61, right associativity) : py_scope.
Local Open Scope py_scope.

(** [[f(x) for x in xs]] *)
Fixpoint mapM {A B} (f : A -> M B) (xs : list A) : M (list B) :=
  match xs with
  | [] => ret []
  | x :: tl => y <- f x ;; ys <- mapM f tl ;; ret (y :: ys)
  end.

(** [for x in xs: f(x)] *)
Fixpoint forM {A} (f : A -> M unit) (xs : list A) : M unit :=
  match xs with
  | [] => ret tt
  | x :: tl => f x ;; forM f tl
  end.

(** ** What the script imports

    The standard library, [chardet] and the text layer of [open] on one
    side, the [sublib] package on the other.  Their code is not part of the
    script; the script is verified against these interfaces. *)

Class Platform := {
  (** [os.path.abspath(os.path.normpath(path))] *)
  normabs : string -> string;
  (** [os.path.basename(path)] *)
  basename : string -> string;
  (** [chardet.detect(data)["encoding"]] *)
  chardet_encoding : list byte -> option string;
  (** the bytes a text file opened with [encoding=e] stores for a text *)
  text_encode : option string -> string -> result (list byte);
  (** [str] of a list of strings, as an f-string renders it *)
  repr_list : list string -> string;
  (** [str(sys.exc_info())] for a caught exception *)
  exc_info : exn -> string;
  (** [f"{os.path.splitext(__file__)[0]}.log"] *)
  default_logfile : string;
  (** can the host open this file for appending, creating it if need be?
      [logging.basicConfig(filename=...)] raises [OSError] when it can not *)
  log_opens : string -> bool;
  (** [stop - start], rendered *)
  elapsed : string
}.

(** The four classes of [sublib]. *)
Inductive adapter := MPlayer2 | SubRip | MicroDVD | TMPlayer.

Class Sublib := {
  (** the general format: what [get_general_format] returns *)
  general : Type;
  (** an instance of one of the four classes *)
  subtitle : Type;
  (** [sublib.C(path, encoding)], which may read the disk; it is taken to
      return an object or to raise, and what the package may print on the
      way is not part of the interface *)
  sub_new : adapter -> node -> string -> option string -> result subtitle;
  (** the attributes [path] and [content] *)
  sub_path : subtitle -> string;
  sub_content : subtitle -> list string;
  get_general_format : subtitle -> result general;
  (** [set_from_general_format] updates the object it is called on *)
  set_from_general_format : subtitle -> general -> result subtitle;
  (** [sublib.detect(file, encoding)] *)
  sublib_detect : node -> string -> option string -> result string
}.

Section Script.

Context {P : Platform} {L : Sublib}.

(** *** Logging *)

(** A record passes when its level reaches the threshold of the logger. *)
Definition emit (level : Z) (name func msg : string) : M unit :=
  fun w =>
    if log_level w <=? level then
      match logfile w with
      | Some records =>
          (Ok tt, with_logfile w (Some (records ++ [LogRecord name func msg])%list))
      | None => (Ok tt, w)
      end
    else (Ok tt, w).

Definition logger_info (func msg : string) : M unit :=
  emit INFO "INFO" func msg.

Definition logger_critical (func msg : string) : M unit :=
  emit CRITICAL "CRITICAL" func msg.

(** [basicConfig] opens the normalised file for appending at once: this
    creates the file and sets the threshold, or raises when the host can
    not open the file, leaving the logging as it was. *)
Definition set_logger (file : string) (level : Z) : M unit :=
  fun w =>
    let file := normabs file in
    if log_opens file then
      let records := match logfile w with Some r => r | None => [] end in
      (Ok tt, mkWorld (disk w) (Some records) level (stdout w))
    else (Raise (OSError file), w).

Definition print (line : string) : M unit :=
  fun w => (Ok tt, mkWorld (disk w) (logfile w) (log_level w)
                       (stdout w ++ [line])%list).

(** *** [find_files] *)

Definition find_files (path : string) : M (list string) :=
  root <- get_disk ;;
  let files : option (list string) := None in
  let files :=
    if Disk.isfile root path then Some [path] else files in
  files <-
    (if Disk.isdir root path then
       let files := Disk.walk root path in
       match files with
       | (_, _, names) :: _ =>
           ret (Some (map (fun file =>
                             Py.replace file file (path ++ sep_str ++ file))
                          names))
       | [] => raise IndexError
       end
     else ret files) ;;
  match files with
  | Some files => ret files
  | None => raise (UnboundLocalError "files")
  end.

(** *** [detect_encoding] *)

Definition detect_encoding (file : string) : M (option string) :=
  root <- get_disk ;;
  file_content <- lift (Disk.read root file) ;;
  let result := chardet_encoding file_content in
  ret result.

(** *** [get_subtitle]

    The parameter [subtitle] is rebound to the new object in each branch;
    when no branch is taken it still names the dict that was passed. *)

Inductive object :=
| Instance (s : subtitle)
| Dict (d : input_file).

Definition construct (c : adapter) (path : string) (encd : option string)
  : M object :=
  root <- get_disk ;;
  s <- lift (sub_new c root path encd) ;;
  ret (Instance s).

Definition get_subtitle (subtitle : input_file) : M object :=
  let form := in_format subtitle in
  let path := in_path subtitle in
  let encd := in_encoding subtitle in
  if String.eqb form "mpl" then construct MPlayer2 path encd
  else if String.eqb form "srt" then construct SubRip path encd
  else if String.eqb form "sub" then construct MicroDVD path encd
  else if String.eqb form "tmp" then construct TMPlayer path encd
  else ret (Dict subtitle).

(** *** [write_file] *)

(** [with open(path, "wt", encoding=e) as f: f.writelines(lines)]: the
    file is created or truncated first, then the text is encoded and
    stored.  When the encoding fails the file stays truncated. *)
Definition open_wt_writelines (path : string) (e : option string)
    (lines : list string) : M unit :=
  fun w =>
    match Disk.write (disk w) path [] with
    | Raise x => (Raise x, w)
    | Ok truncated =>
        match text_encode e (String.concat "" lines) with
        | Raise x => (Raise x, with_disk w truncated)
        | Ok data =>
            match Disk.write (disk w) path data with
            | Raise x => (Raise x, with_disk w truncated)
            | Ok written => (Ok tt, with_disk w written)
            end
        end
    end.

Definition call_get_general_format (o : object) : M general :=
  match o with
  | Instance s => lift (get_general_format s)
  | Dict _ => raise (AttributeError "get_general_format")
  end.

Definition call_set_from_general_format (o : object) (lines : general)
  : M object :=
  match o with
  | Instance s =>
      s' <- lift (set_from_general_format s lines) ;; ret (Instance s')
  | Dict _ => raise (AttributeError "set_from_general_format")
  end.

Definition attr_path (o : object) : M string :=
  match o with
  | Instance s => ret (sub_path s)
  | Dict _ => raise (AttributeError "path")
  end.

Definition attr_content (o : object) : M (list string) :=
  match o with
  | Instance s => ret (sub_content s)
  | Dict _ => raise (AttributeError "content")
  end.

Definition write_file (subtitle : object) (file : output_file)
    (form : string) : M unit :=
  new <- get_subtitle (InputFile "" (Some "") form) ;;
  lines <- call_get_general_format subtitle ;;
  new <- call_set_from_general_format new lines ;;
  p <- attr_path subtitle ;;
  logger_info "write_file" ("Converted: " ++ basename p) ;;
  content <- attr_content new ;;
  open_wt_writelines (out_path file) (out_encoding file)
    (map (fun line => line ++ newline) content) ;;
  logger_info "write_file" ("Saved: " ++ basename (out_path file)).

(** *** [end]

    [os.path.getsize] and [os.remove] are applied to the log file, which
    the handler has just closed: an empty log file is removed. *)

Definition end_ : M unit :=
  logger_info "end" ("Execution time: " ++ elapsed ++ "s") ;;
  logger_info "end" "END" ;;
  fun w =>
    match logfile w with
    | Some [] => (Ok tt, with_logfile w None)
    | Some _ => (Ok tt, w)
    | None => (Raise (OSError default_logfile), w)
    end.

(** *** [main] *)

(** What [parser] returns: the attributes of a [convert] call, of a
    [detect] call, or [command = None] alone when no sub-command is given. *)
Inductive Namespace :=
| Convert (path form : string) (log : option string)
| Detect (path : string) (log : option string)
| NoCommand.

Definition ns_command (a : Namespace) : option string :=
  match a with
  | Convert _ _ _ => Some "convert"
  | Detect _ _ => Some "detect"
  | NoCommand => None
  end.

Definition ns_path (a : Namespace) : M string :=
  match a with
  | Convert path _ _ => ret path
  | Detect path _ => ret path
  | NoCommand => raise (AttributeError "path")
  end.

Definition ns_log (a : Namespace) : M (option string) :=
  match a with
  | Convert _ _ log => ret log
  | Detect _ log => ret log
  | NoCommand => raise (AttributeError "log")
  end.

Definition ns_form (a : Namespace) : M string :=
  match a with
  | Convert _ form _ => ret form
  | _ => raise (AttributeError "form")
  end.

(** [if logfile:] holds for a string that is not empty. *)
Definition truthy (logfile : option string) : bool :=
  match logfile with
  | Some s => Disk.nonempty s
  | None => false
  end.

Definition command_is (command : option string) (name : string) : bool :=
  match command with
  | Some c => String.eqb c name
  | None => false
  end.

(** The dict appended to [input_files] for one file. *)
Definition input_record (file : string) : M input_file :=
  encoding <- detect_encoding file ;;
  encoding' <- detect_encoding file ;;
  root <- get_disk ;;
  format <- lift (sublib_detect root file encoding') ;;
  ret (InputFile file encoding format).

(** The dict appended to [output_files] for one input file. *)
Definition output_record (form : string) (file : input_file) : output_file :=
  OutputFile (get_new_path file form) (in_encoding file).

Definition forms : list (string * string) :=
  [("mpl", "MPlayer2"); ("srt", "SubRip"); ("sub", "MicroDVD");
   ("tmp", "TMPlayer"); ("undefined", "Unknown")].

Fixpoint getitem (d : list (string * string)) (key : string) : M string :=
  match d with
  | [] => raise (KeyError key)
  | (k, v) :: tl => if String.eqb k key then ret v else getitem tl key
  end.

Definition main (arguments : Namespace) : M unit :=
  let command := ns_command arguments in
  path <- ns_path arguments ;;
  logfile <- ns_log arguments ;;
  let path := normabs path in
  (if truthy logfile
   then set_logger (match logfile with Some l => l | None => "" end) INFO
   else set_logger default_logfile CRITICAL) ;;
  logger_info "main" "START" ;;
  root <- get_disk ;;
  (if Disk.exists_ root path
   then logger_info "main" ("Path: " ++ path)
   else
     logger_critical "main" ("Path does not exists: " ++ path) ;;
     end_ ;;
     raise (SystemExit ("Path does not exists: " ++ path))) ;;
  (if command_is command "convert" then
     form <- ns_form arguments ;;
     files <- find_files path ;;
     input_files <- mapM input_record files ;;
     logger_info "main"
       ("Input files: " ++ repr_list (map (fun f => basename (in_path f))
                                         input_files)) ;;
     let output_files := map (output_record form) input_files in
     logger_info "main"
       ("Output files: " ++ repr_list (map (fun f => basename (out_path f))
                                          output_files)) ;;
     input_subtitles <- mapM get_subtitle input_files ;;
     forM (fun '(subtitle, file) => write_file subtitle file form)
          (combine input_subtitles output_files)
   else if command_is command "detect" then
     files <- find_files path ;;
     forM (fun file =>
             encoding <- detect_encoding file ;;
             root <- get_disk ;;
             form <- lift (sublib_detect root file encoding) ;;
             name <- getitem forms form ;;
             let message :=
               basename file ++ " is in " ++ name ++ " format" in
             logger_info "main" message ;;
             print message)
          files
   else ret tt) ;;
  end_.

(** *** The [__main__] block

    [sys.exit] with a string prints it on the error stream and ends the
    process with status 1; any other exception is caught, reported on the
    standard output, and the process ends normally. *)

Record outcome := Outcome {
  status : Z;
  stderr : option string
}.

Definition run (arguments : Namespace) (w : World) : outcome * World :=
  match main arguments w with
  | (Ok _, w') => (Outcome 0 None, w')
  | (Raise e, w') =>
      if is_Exception e then
        match (print "An unknown error has occurred:" ;;
               print (exc_info e)) w' with
        | (_, w'') => (Outcome 0 None, w'')
        end
      else
        match e with
        | SystemExit msg => (Outcome 1 (Some msg), w')
        | _ => (Outcome 1 None, w')
        end
  end.

End Script.

(** ** A small platform and a small [sublib] to run the script on *)

Module Example.

Definition last_component (path : string) : string :=
  last (Disk.split path) EmptyString.

Definition ascii_name : string := "ascii".

Definition is_ascii (b : byte) : bool := (Byte.to_nat b <? 128)%nat.

(** An answer for plain ASCII only: none for an empty file, none when a
    byte is out of that range. *)
Definition guess (data : list byte) : option string :=
  match data with
  | [] => None
  | _ => if forallb is_ascii data then Some ascii_name else None
  end.

Definition encode (e : option string) (text : string) : result (list byte) :=
  match e with
  | None => Ok (list_byte_of_string text)
  | Some name =>
      if String.eqb name ascii_name then Ok (list_byte_of_string text)
      else Raise (EncodingError e)
  end.

(** The host has no directory [C:\nodir]: a log file can not be opened
    there. *)
Definition opens (file : string) : bool := negb (prefix "C:\nodir\" file).

#[export] Instance platform : Platform := {|
  normabs := fun p => p;
  basename := last_component;
  chardet_encoding := guess;
  text_encode := encode;
  repr_list := String.concat ", ";
  exc_info := fun _ => "exception";
  default_logfile := "sublib_cli.log";
  log_opens := opens;
  elapsed := "0"
|}.

(** A file is told by its first byte; an object keeps its class, its path
    and its lines, and the general format is the list of lines. *)
Definition first_byte_format (data : list byte) : string :=
  match data with
  | "["%byte :: _ => "mpl"
  | "1"%byte :: _ => "srt"
  | "{"%byte :: _ => "sub"
  | "0"%byte :: _ => "tmp"
  | _ => "undefined"
  end.

Definition load (c : adapter) (root : node) (path : string)
    (e : option string) : result (adapter * string * list string) :=
  if Disk.nonempty path then
    match Disk.read root path with
    | Ok data => Ok (c, path, [string_of_list_byte data])
    | Raise x => Raise x
    end
  else Ok (c, path, []).

#[export] Instance lib : Sublib := {|
  general := list string;
  subtitle := adapter * string * list string;
  sub_new := load;
  sub_path := fun s => snd (fst s);
  sub_content := fun s => snd s;
  get_general_format := fun s => Ok (snd s);
  set_from_general_format := fun s g => Ok (fst s, g);
  sublib_detect := fun root path e =>
    match Disk.read root path with
    | Ok data => Ok (first_byte_format data)
    | Raise x => Raise x
    end
|}.

Definition bytes (s : string) : list byte := list_byte_of_string s.

(** [C:\subs] holds a SubRip file, an empty file, a file in no known
    format and a sub-directory with one more SubRip file; [C:\raw.srt] is
    a SubRip file with a byte that is not ASCII; [C:\pipe] is neither a
    file nor a directory. *)
Definition root : node :=
  Directory
    [("C:", Directory
       [("subs", Directory
          [("a.srt", RegFile (bytes "1 hello"));
           ("empty.srt", RegFile []);
           ("notes.txt", RegFile (bytes "plain text"));
           ("season1", Directory
              [("b.srt", RegFile (bytes "1 world"))])]);
        ("raw.srt", RegFile ["1"%byte; xe9]);
        ("pipe", Special None)])].

Definition world : World := mkWorld root None 0 [].

(** A disk with one SubRip file, and what converting it involves. *)
Definition lone : node :=
  Directory [("C:", Directory [("a.srt", RegFile (bytes "1 hello"))])].

Definition lone_world : World := mkWorld lone None 0 [].

Definition a_srt : input_file :=
  InputFile "C:\a.srt" (Some ascii_name) "srt".

Definition a_source : @subtitle lib :=
  (SubRip, "C:\a.srt", ["1 hello"]).

Definition a_target : @subtitle lib :=
  (TMPlayer, "", ["1 hello"]).

Definition a_blank : @subtitle lib := (TMPlayer, "", []).

Definition a_data : list byte := bytes ("1 hello" ++ newline).

Definition lone_converted : node :=
  Directory [("C:", Directory [("a.srt", RegFile (bytes "1 hello"));
                               ("a.txt", RegFile a_data)])].


End Example.

(** ** The vocabulary of the statements *)

Definition dot : ascii := ascii_of_nat 46.

(** The table of the specification: the class each format tag selects. *)
Definition adapter_of_tag (tag : string) : option adapter :=
  if String.eqb tag "mpl" then Some MPlayer2
  else if String.eqb tag "srt" then Some SubRip
  else if String.eqb tag "sub" then Some MicroDVD
  else if String.eqb tag "tmp" then Some TMPlayer
  else None.

(** The files of a whole tree, as [os.walk] visits them. *)
Definition tree_files (root : node) (path : string) : list string :=
  flat_map (fun t : string * list string * list string =>
              map (fun name => fst (fst t) ++ sep_str ++ name) (snd t))
           (Disk.walk root path).

(** What C2 asks of a directory: every file of the tree is found. *)
Definition discovers_tree (w : World) (path : string) : Prop :=
  forall file, In file (tree_files (disk w) path) ->
    exists files, fst (find_files path w) = Ok files /\ In file files.

Section Statements.

Context {P : Platform} {L : Sublib}.

(** The text [writelines] is given. *)
Definition written_text (s : subtitle) : string :=
  String.concat "" (map (fun line => line ++ newline) (sub_content s)).


End Statements.

(** ** What a computation leaves alone

    [keeps R m] says that the world [m] ends in, whether [m] returns or
    raises, is related by [R] to the world it started in. *)

Definition keeps {A} (R : World -> World -> Prop) (m : M A) : Prop :=
  forall w, R w (snd (m w)).

Definition unchanged (w w' : World) : Prop := w' = w.

Definition same_disk (w w' : World) : Prop := disk w' = disk w.

Definition same_stdout (w w' : World) : Prop := stdout w' = stdout w.

(** Under the threshold [CRITICAL] the log stays as it is. *)
Definition quiet (w w' : World) : Prop :=
  log_level w = CRITICAL ->
  log_level w' = CRITICAL /\ logfile w' = logfile w.

(** The paths [main] derives for the output files of the files found;
    [get_new_path] reads the path of a record only. *)
Definition output_paths (form : string) (files : list string) : list string :=
  map (fun file => get_new_path (InputFile file None "") form) files.

(** A path that names none of the given files. *)
Definition apart (paths : list string) (q : string) : Prop :=
  forall p, In p paths -> Disk.components q <> Disk.components p.

(** Every file apart from the given paths reads as before. *)
Definition only_touches (paths : list string) (w w' : World) : Prop :=
  forall q, apart paths q -> Disk.read (disk w') q = Disk.read (disk w) q.


(** The bytes a node gives to a reader, if it gives any. *)
Definition content (n : option node) : option (list byte) :=
  match n with
  | Some (RegFile data) => Some data
  | Some (Special (Some data)) => Some data
  | _ => None
  end.

(** The value of the [--log] option, when the namespace has one. *)
Definition log_option (a : Namespace) : option string :=
  match a with
  | Convert _ _ log => log
  | Detect _ log => log
  | NoCommand => None
  end.

(** The path argument, when the namespace has one. *)
Definition path_argument (a : Namespace) : option string :=
  match a with
  | Convert path _ _ => Some path
  | Detect path _ => Some path
  | NoCommand => None
  end.

(** The records of the log file before the run. *)
Definition records_of (w : World) : list log_record :=
  match logfile w with Some records => records | None => [] end.

Section Reports.

Context {P : Platform} {L : Sublib}.

(** The file [main] hands to [basicConfig] for a value of the [--log]
    option: the value when there is one that is not empty, the default
    file otherwise, normalised by [set_logger]. *)
Definition log_target (log : option string) : string :=
  normabs (if truthy log
           then match log with Some l => l | None => "" end
           else default_logfile).

(** The log file of a run. *)
Definition log_file (a : Namespace) : string := log_target (log_option a).

(** The log file is neither the given path nor a file of the directory
    that path names: opening it adds nothing to what [find_files] finds. *)
Definition log_elsewhere (path log : string) : Prop :=
  Disk.components log <> Disk.components path
  /\ forall name,
       Disk.components log <> (Disk.components path ++ [name])%list.



End Reports.

(** * Properties *)

(** ** Strings *)

Section StringFacts.

Lemma prefix_dot_head (c : ascii) (t : string) :
  prefix "." (String c t) = Ascii.eqb c dot.
Proof.
  cbn [prefix]. destruct (ascii_dec "." c) as [E | E].
  - subst c. now destruct t.
  - symmetry. apply Ascii.eqb_neq. intro H. apply E. subst c. reflexivity.
Qed.

Lemma rfind_go_no_dot (s : string) :
  Py.has_char dot s = false ->
  forall i last, Py.rfind_go "." s i last = last.
Proof.
  induction s as [| c t IH]; intros H i last.
  - reflexivity.
  - cbn [Py.has_char] in H. apply orb_false_iff in H as [Hc Ht].
    cbn [Py.rfind_go]. rewrite prefix_dot_head, Hc. now apply IH.
Qed.

Lemma rfind_go_last_dot (stem ext : string) :
  Py.has_char dot ext = false ->
  forall i last,
    Py.rfind_go "." (stem ++ String dot ext) i last
    = i + Z.of_nat (String.length stem).
Proof.
  intros Hext. induction stem as [| c t IH]; intros i last.
  - cbn [append Py.rfind_go String.length].
    rewrite prefix_dot_head, Ascii.eqb_refl.
    rewrite rfind_go_no_dot by assumption. cbn. lia.
  - cbn [append Py.rfind_go String.length]. rewrite IH. lia.
Qed.

Lemma substring_whole_prefix (a b : string) :
  substring 0 (String.length a) (a ++ b) = a.
Proof.
  induction a as [| c t IH]; cbn [append String.length substring].
  - now destruct b.
  - now rewrite IH.
Qed.

Lemma substring_drop_last (s : string) :
  substring 0 (String.length s - 1) s = Py.drop_last s.
Proof.
  induction s as [| c t IH]; [reflexivity |].
  cbn [String.length]. rewrite Nat.sub_1_r. cbn [Nat.pred].
  destruct t as [| d u]; [reflexivity |].
  cbn [String.length substring Py.drop_last] in *.
  rewrite Nat.sub_1_r in IH. cbn [Nat.pred] in IH. now rewrite IH.
Qed.

Lemma slice_to_minus_one (s : string) :
  Py.slice_to s (-1) = Py.drop_last s.
Proof.
  unfold Py.slice_to. cbn [Z.ltb Z.compare].
  replace (Z.to_nat (Z.max 0 (-1 + Z.of_nat (String.length s))))
    with (String.length s - 1)%nat by lia.
  apply substring_drop_last.
Qed.

Lemma length_app (a b : string) :
  String.length (a ++ b) = (String.length a + String.length b)%nat.
Proof.
  induction a as [| c t IH]; cbn [append String.length Nat.add]; congruence.
Qed.

Lemma slice_to_stem (stem rest : string) :
  Py.slice_to (stem ++ rest) (Z.of_nat (String.length stem)) = stem.
Proof.
  unfold Py.slice_to.
  destruct (Z.ltb_spec (Z.of_nat (String.length stem)) 0) as [H | H]; [lia |].
  rewrite length_app.
  replace (Z.to_nat _) with (String.length stem) by lia.
  apply substring_whole_prefix.
Qed.

Lemma extension_of_choice (form : string) :
  In form choices ->
  (if Py.str_in form ["mpl"; "tmp"] then ".txt"
   else if Py.str_in form ["srt"; "sub"] then "." ++ form
   else "") = "." ++ canonical_extension form.
Proof.
  intros [H | [H | [H | [H | []]]]]; subst form; reflexivity.
Qed.

Lemma get_new_path_unfold (file : input_file) (form : string) :
  get_new_path file form
  = Py.slice_to (in_path file) (Py.rfind (in_path file) ".")
    ++ (if Py.str_in form ["mpl"; "tmp"] then ".txt"
        else if Py.str_in form ["srt"; "sub"] then "." ++ form
        else "").
Proof.
  unfold get_new_path.
  destruct (Py.str_in form ["mpl"; "tmp"]); [reflexivity |].
  destruct (Py.str_in form ["srt"; "sub"]); [reflexivity |].
  generalize (Py.slice_to (in_path file) (Py.rfind (in_path file) ".")).
  intros s. induction s as [| c t IH]; [reflexivity |].
  cbn [append]. now rewrite <- IH.
Qed.

End StringFacts.

(** ** [get_new_path] *)

(** C4. When the path ends in an extension (a dot followed by characters
    none of which is a dot), the new path keeps everything before that dot
    and ends in [.txt] for the targets mpl and tmp, in [.srt] for srt and in
    [.sub] for sub. *)
Theorem get_new_path_replaces_extension
    (stem ext : string) (encoding : option string) (format form : string)
    (Hext : Py.has_char dot ext = false)
    (Hform : In form choices) :
  get_new_path (InputFile (stem ++ "." ++ ext) encoding format) form
  = stem ++ "." ++ canonical_extension form.
Proof.
  rewrite get_new_path_unfold, (extension_of_choice form Hform).
  cbn [in_path]. unfold Py.rfind.
  change ("." ++ ext) with (String dot ext).
  rewrite rfind_go_last_dot by assumption.
  cbn [Z.add]. now rewrite slice_to_stem.
Qed.

Lemma get_new_path_replaces_extension_witness :
  get_new_path (InputFile ("C:\subs\a.en" ++ "." ++ "srt") None "srt") "tmp"
  = "C:\subs\a.en" ++ "." ++ canonical_extension "tmp".
Proof.
  apply get_new_path_replaces_extension.
  - reflexivity.
  - simpl. tauto.
Defined.

(** C8. When the path holds no dot at all, [rfind] answers [-1] and the
    slice drops the last character of the path: the new path is the path
    without its last character, followed by the extension of the target. *)
Theorem get_new_path_without_dot
    (path : string) (encoding : option string) (format form : string)
    (Hnone : Py.has_char dot path = false)
    (Hform : In form choices) :
  get_new_path (InputFile path encoding format) form
  = Py.drop_last path ++ "." ++ canonical_extension form.
Proof.
  rewrite get_new_path_unfold, (extension_of_choice form Hform).
  cbn [in_path]. unfold Py.rfind.
  rewrite rfind_go_no_dot by assumption.
  now rewrite slice_to_minus_one.
Qed.

Lemma get_new_path_without_dot_witness :
  get_new_path (InputFile "C:\subs\README" None "srt") "sub"
  = Py.drop_last "C:\subs\README" ++ "." ++ canonical_extension "sub".
Proof.
  apply get_new_path_without_dot.
  - reflexivity.
  - simpl. tauto.
Defined.

(** ** [find_files] *)

Section FindFiles.

Lemma prefix_refl (s : string) : prefix s s = true.
Proof.
  induction s as [| c t IH]; [reflexivity |].
  cbn [prefix]. destruct (ascii_dec c c); [assumption | contradiction].
Qed.

Lemma replace_go_skips_all (old new t : string) :
  old <> EmptyString ->
  Py.replace_go old new (String.length t) t = EmptyString.
Proof.
  intros Hold. induction t as [| c u IH].
  - destruct old; [contradiction | reflexivity].
  - exact IH.
Qed.

Lemma append_empty_r (s : string) : s ++ "" = s.
Proof. induction s as [| c t IH]; cbn [append]; congruence. Qed.

(** [file.replace(file, new)] is [new]. *)
Lemma replace_self (file new : string) : Py.replace file file new = new.
Proof.
  unfold Py.replace. destruct file as [| c t]; [reflexivity |].
  cbn [Py.replace_go]. rewrite prefix_refl. cbn [String.length].
  rewrite replace_go_skips_all by discriminate. apply append_empty_r.
Qed.

Lemma find_files_cases (path : string) (w : World) :
  find_files path w =
  match Disk.resolve (disk w) path with
  | Some (RegFile _) => (Ok [path], w)
  | Some (Directory es) =>
      (Ok (map (fun name => path ++ sep_str ++ name) (Disk.filenames es)), w)
  | _ => (Raise (UnboundLocalError "files"), w)
  end.
Proof.
  unfold find_files, bind, get_disk, Disk.isfile, Disk.isdir, Disk.walk.
  destruct (Disk.resolve (disk w) path) as [[data | es | r] |];
    try reflexivity.
  cbn [Disk.walk_node]. unfold ret. do 2 f_equal.
  apply map_ext. intros name. apply replace_self.
Qed.

End FindFiles.

(** C2, refuted: in [C:\subs] the file [season1\b.srt] is part of the tree
    and is not among the files found. *)
Lemma find_files_misses_subdirectory :
  ~ discovers_tree Example.world "C:\subs".
Proof.
  intros H.
  destruct (H "C:\subs\season1\b.srt") as [files [E Hin]].
  - cbv. auto 10.
  - vm_compute in E. injection E as <-.
    cbn [In] in Hin. decompose [or] Hin; try discriminate; contradiction.
Qed.

(** C2, amended. When the path names a directory, the files found are
    exactly the entries of that directory that are not directories
    themselves, each named by the path, a backslash and the entry's name;
    nothing below a sub-directory is found. *)
Theorem find_files_lists_top_directory
    (w : World) (path : string) (entries : list (string * node))
    (Hdir : Disk.resolve (disk w) path = Some (Directory entries)) :
  find_files path w
  = (Ok (map (fun name => path ++ sep_str ++ name) (Disk.filenames entries)),
     w).
Proof.
  rewrite find_files_cases, Hdir. reflexivity.
Qed.

Lemma find_files_lists_top_directory_witness :
  find_files "C:\subs" Example.world
  = (Ok ["C:\subs\a.srt"; "C:\subs\empty.srt"; "C:\subs\notes.txt"],
     Example.world).
Proof.
  exact (find_files_lists_top_directory Example.world "C:\subs" _ eq_refl).
Defined.

(** C10. A path that exists and names neither a regular file nor a
    directory makes [find_files] raise, its variable [files] never having
    been assigned; and whenever [find_files] returns a list, its argument
    names a regular file or a directory. *)
Theorem find_files_defined_only_for_file_or_directory
    (w : World) (path : string)
    (Hexists : Disk.exists_ (disk w) path = true)
    (Hfile : Disk.isfile (disk w) path = false)
    (Hdir : Disk.isdir (disk w) path = false) :
  find_files path w = (Raise (UnboundLocalError "files"), w)
  /\ (forall p files,
        fst (find_files p w) = Ok files ->
        Disk.isfile (disk w) p || Disk.isdir (disk w) p = true).
Proof.
  split.
  - rewrite find_files_cases.
    unfold Disk.exists_, Disk.isfile, Disk.isdir in *.
    destruct (Disk.resolve (disk w) path) as [[data | es | r] |];
      try discriminate; reflexivity.
  - intros p files. rewrite find_files_cases.
    unfold Disk.isfile, Disk.isdir.
    destruct (Disk.resolve (disk w) p) as [[data | es | r] |];
      cbn; try discriminate; reflexivity.
Qed.

Lemma find_files_defined_only_for_file_or_directory_witness :
  find_files "C:\pipe" Example.world
  = (Raise (UnboundLocalError "files"), Example.world).
Proof.
  apply (find_files_defined_only_for_file_or_directory
           Example.world "C:\pipe"); reflexivity.
Defined.

(** ** The disk *)

Section DiskFacts.

Lemma assoc_set_entry (name : string) (x : node) (es : list (string * node)) :
  Disk.assoc name (Disk.set_entry name x es) = Some x.
Proof.
  induction es as [| [n y] tl IH]; cbn [Disk.set_entry Disk.assoc].
  - now rewrite String.eqb_refl.
  - destruct (String.eqb n name) eqn:E; cbn [Disk.assoc]; rewrite E;
      [reflexivity | exact IH].
Qed.

Lemma descend_store (names : list string) (data : list byte) :
  forall n n', Disk.store names data n = Some n' ->
               Disk.descend names n' = Some (RegFile data).
Proof.
  induction names as [| c rest IH]; intros n n' H.
  - destruct n; cbn in H; try discriminate. now injection H as <-.
  - cbn [Disk.store] in H. destruct n as [| es |]; try discriminate.
    destruct (Disk.assoc c es) as [child |] eqn:E.
    + destruct (Disk.store rest data child) as [child' |] eqn:S;
        try discriminate.
      injection H as <-. cbn [Disk.descend]. rewrite assoc_set_entry.
      eapply IH; eassumption.
    + destruct rest; try discriminate. injection H as <-.
      cbn [Disk.descend]. now rewrite assoc_set_entry.
Qed.

(** What was written is what is read back. *)
Lemma read_after_write (root root' : node) (path : string) (data : list byte) :
  Disk.write root path data = Ok root' -> Disk.read root' path = Ok data.
Proof.
  unfold Disk.write, Disk.read, Disk.resolve.
  destruct (Disk.nonempty path); try discriminate.
  destruct (Disk.store (Disk.components path) data root) eqn:S;
    try discriminate.
  intros H. injection H as <-. now rewrite (descend_store _ _ _ _ S).
Qed.

Lemma store_any_data (names : list string) (a b : list byte) :
  forall n n1, Disk.store names a n = Some n1 ->
               exists n2, Disk.store names b n = Some n2.
Proof.
  induction names as [| c rest IH]; intros n n1 H.
  - destruct n; cbn in *; try discriminate. eauto.
  - cbn [Disk.store] in *. destruct n as [| es |]; try discriminate.
    destruct (Disk.assoc c es) as [child |].
    + destruct (Disk.store rest a child) eqn:S; try discriminate.
      destruct (IH _ _ S) as [n2 ->]. eauto.
    + destruct rest; try discriminate. eauto.
Qed.

(** Whether a file can be written does not depend on what is written. *)
Lemma write_any_data (root root1 : node) (path : string) (a b : list byte) :
  Disk.write root path a = Ok root1 ->
  exists root2, Disk.write root path b = Ok root2.
Proof.
  unfold Disk.write. destruct (Disk.nonempty path); try discriminate.
  destruct (Disk.store (Disk.components path) a root) eqn:S;
    try discriminate.
  intros _. destruct (store_any_data _ _ b _ _ S) as [n2 ->]. eauto.
Qed.

End DiskFacts.

(** ** Running the script step by step *)

Section Steps.

Context {P : Platform} {L : Sublib}.

Lemma bind_ok {A B} (m : M A) (k : A -> M B) (w w2 : World) (b : B) :
  bind m k w = (Ok b, w2) ->
  exists a w1, m w = (Ok a, w1) /\ k a w1 = (Ok b, w2).
Proof.
  unfold bind. destruct (m w) as [[a | e] w1]; [eauto | discriminate].
Qed.

Lemma bind_step {A B} (m : M A) (k : A -> M B) (w w1 : World) (a : A) :
  m w = (Ok a, w1) -> bind m k w = k a w1.
Proof. unfold bind. now intros ->. Qed.

(** Logging leaves the disk and the standard output as they are. *)
Lemma emit_steps (level : Z) (name func msg : string) (w : World) :
  exists w', emit level name func msg w = (Ok tt, w')
             /\ disk w' = disk w /\ stdout w' = stdout w.
Proof.
  unfold emit. destruct (log_level w <=? level); [| eauto].
  destruct (logfile w); eauto.
Qed.

Lemma logger_info_steps (func msg : string) (w : World) :
  exists w', logger_info func msg w = (Ok tt, w')
             /\ disk w' = disk w /\ stdout w' = stdout w.
Proof. apply emit_steps. Qed.


Lemma set_logger_steps (file : string) (level : Z) (w : World) :
  log_opens (normabs file) = true ->
  exists w', set_logger file level w = (Ok tt, w')
             /\ disk w' = disk w /\ stdout w' = stdout w
             /\ logfile w' <> None.
Proof.
  intros Hopen. unfold set_logger. rewrite Hopen.
  eexists. split; [reflexivity |]. cbn.
  repeat split; discriminate.
Qed.

(** How [main] sets the logger up when the log file can be opened. *)
Lemma logger_setup_steps (log : option string) (w : World) :
  log_opens (log_target log) = true ->
  exists w1,
    (if truthy log
     then set_logger (match log with Some x => x | None => "" end) INFO
     else set_logger default_logfile CRITICAL) w = (Ok tt, w1)
    /\ disk w1 = disk w /\ stdout w1 = stdout w
    /\ logfile w1 = Some (records_of w)
    /\ log_level w1 = (if truthy log then INFO else CRITICAL).
Proof.
  unfold log_target, set_logger. intros Hopen.
  destruct (truthy log); rewrite Hopen;
    (eexists; split; [reflexivity | cbn; auto]).
Qed.

(** And when it can not. *)
Lemma logger_setup_fails (log : option string) (w : World) :
  log_opens (log_target log) = false ->
  (if truthy log
   then set_logger (match log with Some x => x | None => "" end) INFO
   else set_logger default_logfile CRITICAL) w
  = (Raise (OSError (log_target log)), w).
Proof.
  unfold log_target, set_logger. intros Hopen.
  destruct (truthy log); rewrite Hopen; reflexivity.
Qed.

(** A logger set up is a log file opened. *)
Lemma logger_setup_ok (log : option string) (w w1 : World) :
  (if truthy log
   then set_logger (match log with Some x => x | None => "" end) INFO
   else set_logger default_logfile CRITICAL) w = (Ok tt, w1) ->
  log_opens (log_target log) = true
  /\ w1 = mkWorld (disk w) (Some (records_of w))
            (if truthy log then INFO else CRITICAL) (stdout w).
Proof.
  unfold log_target, set_logger.
  destruct (truthy log);
    match goal with
    | |- context [log_opens ?f] => destruct (log_opens f)
    end; intros H; try discriminate; injection H as <-; auto.
Qed.


Lemma bind_raise {A B} (m : M A) (k : A -> M B) (w w1 : World) (e : exn) :
  m w = (Raise e, w1) -> bind m k w = (Raise e, w1).
Proof. unfold bind. now intros ->. Qed.

(** Building an object reads the disk and changes nothing. *)
Lemma get_subtitle_world (d : input_file) (w : World) :
  snd (get_subtitle d w) = w.
Proof.
  unfold get_subtitle, construct, bind, get_disk, lift, ret.
  repeat match goal with
         | |- context [if ?b then _ else _] => destruct b
         | |- context [sub_new ?c ?r ?p ?e] => destruct (sub_new c r p e)
         end; reflexivity.
Qed.

Lemma get_subtitle_known (d : input_file) (c : adapter) (w : World) :
  adapter_of_tag (in_format d) = Some c ->
  get_subtitle d w =
  match sub_new c (disk w) (in_path d) (in_encoding d) with
  | Ok s => (Ok (Instance s), w)
  | Raise e => (Raise e, w)
  end.
Proof.
  unfold adapter_of_tag, get_subtitle, construct, bind, get_disk, lift, ret.
  repeat match goal with
         | |- context [String.eqb ?a ?b] => destruct (String.eqb a b)
         end; intros H; try discriminate; injection H as <-;
    destruct (sub_new _ _ _ _); reflexivity.
Qed.

Lemma get_subtitle_unknown (d : input_file) (w : World) :
  adapter_of_tag (in_format d) = None ->
  get_subtitle d w = (Ok (Dict d), w).
Proof.
  unfold adapter_of_tag, get_subtitle.
  repeat match goal with
         | |- context [String.eqb ?a ?b] => destruct (String.eqb a b)
         end; intros H; try discriminate; reflexivity.
Qed.

End Steps.

(** ** [get_subtitle] and [write_file] *)

Section Conversion.

Context {P : Platform} {L : Sublib}.

(** A successful [open_wt_writelines] stored the encoded text. *)
Lemma open_wt_writelines_ok (path : string) (e : option string)
    (lines : list string) (w w' : World) :
  open_wt_writelines path e lines w = (Ok tt, w') ->
  exists data,
    text_encode e (String.concat "" lines) = Ok data
    /\ Disk.write (disk w) path data = Ok (disk w')
    /\ stdout w' = stdout w.
Proof.
  unfold open_wt_writelines.
  destruct (Disk.write (disk w) path []); try discriminate.
  destruct (text_encode e (String.concat "" lines)) as [data |];
    try discriminate.
  destruct (Disk.write (disk w) path data) as [written |] eqn:W;
    try discriminate.
  intros H. injection H as <-. exists data. now rewrite W.
Qed.

Lemma open_wt_writelines_steps (path : string) (e : option string)
    (lines : list string) (data : list byte) (written : node) (w : World) :
  text_encode e (String.concat "" lines) = Ok data ->
  Disk.write (disk w) path data = Ok written ->
  open_wt_writelines path e lines w = (Ok tt, with_disk w written).
Proof.
  intros He Hw. unfold open_wt_writelines.
  destruct (write_any_data _ _ _ _ [] Hw) as [t ->].
  now rewrite He, Hw.
Qed.

(** What [write_file] does with an object of a known class. *)
Lemma write_file_steps (src new new' : subtitle) (g : general)
    (file : output_file) (form : string) (c : adapter)
    (data : list byte) (written : node) (w : World) :
  adapter_of_tag form = Some c ->
  sub_new c (disk w) "" (Some "") = Ok new ->
  get_general_format src = Ok g ->
  set_from_general_format new g = Ok new' ->
  text_encode (out_encoding file) (written_text new') = Ok data ->
  Disk.write (disk w) (out_path file) data = Ok written ->
  exists w', write_file (Instance src) file form w = (Ok tt, w')
             /\ disk w' = written /\ stdout w' = stdout w.
Proof.
  intros Hc Hnew Hg Hset He Hw. unfold write_file.
  erewrite bind_step
    by (rewrite (get_subtitle_known _ c) by exact Hc; cbn [in_path in_encoding];
        rewrite Hnew; reflexivity).
  cbn [call_get_general_format call_set_from_general_format attr_path
       attr_content].
  unfold lift at 1. unfold bind at 1. rewrite Hg.
  unfold bind at 1. unfold bind at 1. unfold lift. rewrite Hset.
  unfold ret at 1. unfold bind at 1. unfold ret at 1.
  destruct (logger_info_steps "write_file"
              ("Converted: " ++ basename (sub_path src)) w)
    as [w1 [E1 [D1 O1]]].
  rewrite (bind_step _ _ _ _ _ E1).
  cbn [attr_content]. unfold bind at 1. unfold ret at 1.
  assert (Hw1 : Disk.write (disk w1) (out_path file) data = Ok written)
    by now rewrite D1.
  rewrite (bind_step _ _ _ _ _
             (open_wt_writelines_steps _ _ _ _ _ _ He Hw1)).
  destruct (logger_info_steps "write_file"
              ("Saved: " ++ basename (out_path file)) (with_disk w1 written))
    as [w2 [E2 [D2 O2]]].
  exists w2. rewrite E2. cbn in D2, O2. repeat split; congruence.
Qed.


End Conversion.

(** ** The claims on conversion *)

Section Pipeline.

Context {P : Platform} {L : Sublib}.

Lemma detect_encoding_cases (file : string) (w : World) :
  detect_encoding file w =
  match Disk.read (disk w) file with
  | Ok bytes => (Ok (chardet_encoding bytes), w)
  | Raise e => (Raise e, w)
  end.
Proof.
  unfold detect_encoding, bind, get_disk, lift, ret.
  destruct (Disk.read (disk w) file); reflexivity.
Qed.

(** The record of an input file holds what [chardet] said of its bytes
    and what [sublib.detect] said when given that answer. *)
Lemma input_record_ok (path : string) (source : input_file) (w w' : World) :
  input_record path w = (Ok source, w') ->
  exists bytes,
    Disk.read (disk w) path = Ok bytes
    /\ sublib_detect (disk w) path (chardet_encoding bytes)
       = Ok (in_format source)
    /\ in_path source = path
    /\ in_encoding source = chardet_encoding bytes.
Proof.
  unfold input_record. intros H.
  apply bind_ok in H as (e & w1 & He & H).
  rewrite detect_encoding_cases in He.
  destruct (Disk.read (disk w) path) as [bytes |] eqn:R; try discriminate.
  injection He as <- <-.
  apply bind_ok in H as (e' & w2 & He' & H).
  rewrite detect_encoding_cases, R in He'. injection He' as <- <-.
  unfold bind, get_disk, lift, ret in H.
  destruct (sublib_detect (disk w) path (chardet_encoding bytes)) as [f |] eqn:D;
    try discriminate.
  injection H as <- <-. exists bytes. cbn. auto.
Qed.

(** C1. For a file whose format is ["undefined"], [get_subtitle] raises
    nothing: no branch is taken and the dict it was given comes back.
    The conversion stops only in [write_file], when a method of a
    [sublib] object is called on that dict; nothing has been written by
    then. *)
Theorem undefined_format_is_not_rejected
    (w : World) (path : string) (encoding : option string)
    (file : output_file) (form : string) :
  let d := InputFile path encoding "undefined" in
  get_subtitle d w = (Ok (Dict d), w)
  /\ write_file (Dict d) file form w
     = (Raise (match fst (get_subtitle (InputFile "" (Some "") form) w) with
               | Raise e => e
               | Ok _ => AttributeError "get_general_format"
               end), w).
Proof.
  intros d. split; [reflexivity |].
  unfold write_file, bind.
  pose proof (get_subtitle_world (InputFile "" (Some "") form) w) as Hw.
  destruct (get_subtitle (InputFile "" (Some "") form) w) as [[new | e] w1].
  - cbn in Hw. subst w1. reflexivity.
  - cbn in Hw. subst w1. reflexivity.
Qed.

(** C3. For a file of a known format and a known target, [get_subtitle]
    builds the object of the class the detected tag selects (mpl
    MPlayer2, srt SubRip, sub MicroDVD, tmp TMPlayer), and [write_file]
    takes its general format, loads it into an object of the class the
    requested tag selects, and stores the lines of that object, each
    followed by a line feed, in the file named by [get_new_path]. *)
Theorem conversion_pipeline
    (w : World) (file : input_file) (form : string) (c c' : adapter)
    (src new new' : subtitle) (g : general)
    (data : list byte) (written : node)
    (Hsource_tag : adapter_of_tag (in_format file) = Some c)
    (Htarget_tag : adapter_of_tag form = Some c')
    (Hsource : sub_new c (disk w) (in_path file) (in_encoding file) = Ok src)
    (Hgeneral : get_general_format src = Ok g)
    (Htarget : sub_new c' (disk w) "" (Some "") = Ok new)
    (Hload : set_from_general_format new g = Ok new')
    (Hencode : text_encode (in_encoding file) (written_text new') = Ok data)
    (Hwrite : Disk.write (disk w) (get_new_path file form) data = Ok written) :
  get_subtitle file w = (Ok (Instance src), w)
  /\ exists w',
       write_file (Instance src) (output_record form file) form w = (Ok tt, w')
       /\ disk w' = written
       /\ Disk.read (disk w') (get_new_path file form) = Ok data.
Proof.
  split.
  - rewrite (get_subtitle_known _ c) by assumption. now rewrite Hsource.
  - destruct (write_file_steps src new new' g (output_record form file)
                form c' data written w) as [w' [E [D _]]]; try assumption.
    exists w'. repeat split; try assumption.
    rewrite D. eapply read_after_write; eassumption.
Qed.




End Pipeline.

(** ** The claims at work on the example disk *)

Lemma conversion_pipeline_witness :
  get_subtitle (L := Example.lib) Example.a_srt Example.lone_world
  = (Ok (Instance Example.a_source), Example.lone_world)
  /\ exists w',
       write_file (P := Example.platform) (L := Example.lib)
         (Instance Example.a_source) (output_record "tmp" Example.a_srt) "tmp"
         Example.lone_world = (Ok tt, w')
       /\ disk w' = Example.lone_converted
       /\ Disk.read (disk w') (get_new_path Example.a_srt "tmp")
          = Ok Example.a_data.
Proof.
  exact (conversion_pipeline (P := Example.platform) (L := Example.lib)
           Example.lone_world Example.a_srt "tmp" SubRip TMPlayer
           Example.a_source Example.a_blank Example.a_target ["1 hello"]
           Example.a_data Example.lone_converted
           eq_refl eq_refl eq_refl eq_refl eq_refl eq_refl eq_refl eq_refl).
Defined.






(** Converting [C:\subs]: [a.srt] is converted, the file with no known
    format that comes next stops the run, which reports an unknown error and
    ends with status 0; the files after it are not converted. *)
Lemma undefined_file_stops_the_batch :
  let r := run (P := Example.platform) (L := Example.lib)
             (Convert "C:\subs" "tmp" None) Example.world in
  fst r = Outcome 0 None
  /\ stdout (snd r) = ["An unknown error has occurred:"; "exception"]
  /\ Disk.isfile (disk (snd r)) "C:\subs\a.txt" = true
  /\ Disk.exists_ (disk (snd r)) "C:\subs\empty.txt" = false
  /\ Disk.exists_ (disk (snd r)) "C:\subs\notes.txt.txt" = false
  /\ Disk.read (disk (snd r)) "C:\subs\notes.txt" = Ok (Example.bytes "plain text").
Proof.
  vm_compute. repeat split.
Qed.

(** * Further properties of the script *)

(** ** Frames *)

Section Frames.

Variable R : World -> World -> Prop.
Hypothesis R_refl : forall w, R w w.
Hypothesis R_trans : forall a b c, R a b -> R b c -> R a c.

Lemma keeps_ret {A} (a : A) : keeps R (ret a).
Proof. intros w. apply R_refl. Qed.

Lemma keeps_raise {A} (e : exn) : keeps R (@raise A e).
Proof. intros w. apply R_refl. Qed.

Lemma keeps_lift {A} (r : result A) : keeps R (lift r).
Proof. intros w. apply R_refl. Qed.

Lemma keeps_get_disk : keeps R get_disk.
Proof. intros w. apply R_refl. Qed.

Lemma keeps_unchanged {A} (m : M A) : keeps unchanged m -> keeps R m.
Proof. intros H w. rewrite (H w). apply R_refl. Qed.

Lemma keeps_bind {A B} (m : M A) (k : A -> M B) :
  keeps R m -> (forall a, keeps R (k a)) -> keeps R (bind m k).
Proof.
  intros Hm Hk w. unfold bind. specialize (Hm w).
  destruct (m w) as [[a | e] w1]; cbn in *.
  - eapply R_trans; [exact Hm | apply Hk].
  - exact Hm.
Qed.

Lemma keeps_mapM {A B} (f : A -> M B) (xs : list A) :
  (forall x, keeps R (f x)) -> keeps R (mapM f xs).
Proof.
  intros Hf. induction xs as [| x tl IH]; cbn [mapM].
  - apply keeps_ret.
  - apply keeps_bind; [apply Hf |]. intros y.
    apply keeps_bind; [exact IH |]. intros ys. apply keeps_ret.
Qed.

Lemma keeps_forM {A} (f : A -> M unit) (xs : list A) :
  (forall x, In x xs -> keeps R (f x)) -> keeps R (forM f xs).
Proof.
  induction xs as [| x tl IH]; intros Hf; cbn [forM].
  - apply keeps_ret.
  - apply keeps_bind; [apply Hf; now left |]. intros _.
    apply IH. intros y Hy. apply Hf. now right.
Qed.

End Frames.

Lemma unchanged_refl (w : World) : unchanged w w.
Proof. reflexivity. Qed.

Lemma unchanged_trans (a b c : World) :
  unchanged a b -> unchanged b c -> unchanged a c.
Proof. unfold unchanged. congruence. Qed.

Lemma same_disk_refl (w : World) : same_disk w w.
Proof. reflexivity. Qed.

Lemma same_disk_trans (a b c : World) :
  same_disk a b -> same_disk b c -> same_disk a c.
Proof. unfold same_disk. congruence. Qed.

Lemma same_stdout_refl (w : World) : same_stdout w w.
Proof. reflexivity. Qed.

Lemma same_stdout_trans (a b c : World) :
  same_stdout a b -> same_stdout b c -> same_stdout a c.
Proof. unfold same_stdout. congruence. Qed.

Lemma quiet_refl (w : World) : quiet w w.
Proof. intros H. auto. Qed.

Lemma quiet_trans (a b c : World) : quiet a b -> quiet b c -> quiet a c.
Proof.
  unfold quiet. intros H1 H2 Ha. destruct (H1 Ha) as [Hb E1].
  destruct (H2 Hb) as [Hc E2]. split; congruence.
Qed.

(** One step of a frame proof for a relation with the given proofs of
    reflexivity and transitivity. *)
Ltac frame_step refl trans :=
  first
    [ apply (keeps_bind _ trans); [| intros ?]
    | apply (keeps_ret _ refl)
    | apply (keeps_raise _ refl)
    | apply (keeps_lift _ refl)
    | apply (keeps_get_disk _ refl)
    | apply (keeps_mapM _ refl trans); intros ?
    | match goal with
      | |- keeps _ (if ?b then _ else _) => destruct b
      | |- keeps _ (match ?x with _ => _ end) => destruct x
      end ].

Section ReadingFrames.

Context {P : Platform} {L : Sublib}.

Lemma find_files_unchanged (path : string) : keeps unchanged (find_files path).
Proof.
  intros w. rewrite find_files_cases.
  destruct (Disk.resolve (disk w) path) as [[data | es | r] |]; reflexivity.
Qed.

Lemma detect_encoding_unchanged (file : string) :
  keeps unchanged (detect_encoding file).
Proof.
  intros w. rewrite detect_encoding_cases.
  destruct (Disk.read (disk w) file); reflexivity.
Qed.

Lemma input_record_unchanged (file : string) :
  keeps unchanged (input_record file).
Proof.
  unfold input_record.
  repeat first [ apply detect_encoding_unchanged
               | frame_step unchanged_refl unchanged_trans ].
Qed.

Lemma get_subtitle_unchanged (d : input_file) : keeps unchanged (get_subtitle d).
Proof. intros w. apply get_subtitle_world. Qed.

Lemma getitem_unchanged (d : list (string * string)) (key : string) :
  keeps unchanged (getitem d key).
Proof.
  induction d as [| [k v] tl IH]; cbn [getitem].
  - apply keeps_raise, unchanged_refl.
  - destruct (String.eqb k key); [apply keeps_ret, unchanged_refl | exact IH].
Qed.

End ReadingFrames.

Section EffectFrames.

Context {P : Platform} {L : Sublib}.

Lemma emit_same_disk (level : Z) (name func msg : string) :
  keeps same_disk (emit level name func msg).
Proof.
  intros w. destruct (emit_steps level name func msg w) as [w' [E [D _]]].
  now rewrite E.
Qed.

Lemma emit_same_stdout (level : Z) (name func msg : string) :
  keeps same_stdout (emit level name func msg).
Proof.
  intros w. destruct (emit_steps level name func msg w) as [w' [E [_ O]]].
  now rewrite E.
Qed.

Lemma set_logger_same_disk (file : string) (level : Z) :
  keeps same_disk (set_logger file level).
Proof.
  intros w. unfold set_logger. destruct (log_opens (normabs file)); reflexivity.
Qed.

Lemma set_logger_same_stdout (file : string) (level : Z) :
  keeps same_stdout (set_logger file level).
Proof.
  intros w. unfold set_logger. destruct (log_opens (normabs file)); reflexivity.
Qed.

Lemma print_same_disk (line : string) : keeps same_disk (print line).
Proof. intros w. reflexivity. Qed.

Lemma end_same_disk : keeps same_disk end_.
Proof.
  unfold end_.
  apply (keeps_bind _ same_disk_trans); [apply emit_same_disk | intros _].
  apply (keeps_bind _ same_disk_trans); [apply emit_same_disk | intros _].
  intros w. destruct (logfile w) as [[| r rs] |]; reflexivity.
Qed.

Lemma end_same_stdout : keeps same_stdout end_.
Proof.
  unfold end_.
  apply (keeps_bind _ same_stdout_trans); [apply emit_same_stdout | intros _].
  apply (keeps_bind _ same_stdout_trans); [apply emit_same_stdout | intros _].
  intros w. destruct (logfile w) as [[| r rs] |]; reflexivity.
Qed.

Lemma open_wt_writelines_same_stdout (path : string) (e : option string)
    (lines : list string) :
  keeps same_stdout (open_wt_writelines path e lines).
Proof.
  intros w. unfold open_wt_writelines.
  destruct (Disk.write (disk w) path []); [| reflexivity].
  destruct (text_encode e (String.concat "" lines)) as [data |];
    [| reflexivity].
  destruct (Disk.write (disk w) path data); reflexivity.
Qed.

(** Steps that read and steps that log, for either relation. *)
Ltac frame_leaf refl :=
  first
    [ apply (keeps_unchanged _ refl);
      first [ apply find_files_unchanged | apply detect_encoding_unchanged
            | apply input_record_unchanged | apply get_subtitle_unchanged
            | apply getitem_unchanged ]
    | apply emit_same_disk | apply emit_same_stdout
    | apply set_logger_same_disk | apply set_logger_same_stdout
    | apply print_same_disk
    | apply end_same_disk | apply end_same_stdout
    | apply open_wt_writelines_same_stdout ].

Lemma write_file_same_stdout (subtitle : object) (file : output_file)
    (form : string) :
  keeps same_stdout (write_file subtitle file form).
Proof.
  unfold write_file, call_get_general_format, call_set_from_general_format,
    attr_path, attr_content, logger_info.
  repeat first [ frame_leaf same_stdout_refl
               | frame_step same_stdout_refl same_stdout_trans ].
Qed.

Lemma main_detect_same_disk (path : string) (log : option string) :
  keeps same_disk (main (Detect path log)).
Proof.
  unfold main, logger_info, logger_critical.
  cbn [ns_command ns_path ns_log].
  change (command_is (Some "detect") "convert") with false.
  change (command_is (Some "detect") "detect") with true.
  cbv iota.
  repeat first [ frame_leaf same_disk_refl
               | apply (keeps_forM _ same_disk_refl same_disk_trans); intros ? _
               | frame_step same_disk_refl same_disk_trans ].
Qed.

Lemma main_convert_same_stdout (path form : string) (log : option string) :
  keeps same_stdout (main (Convert path form log)).
Proof.
  unfold main, logger_info, logger_critical.
  cbn [ns_command ns_path ns_log ns_form].
  change (command_is (Some "convert") "convert") with true.
  cbv iota.
  repeat first [ frame_leaf same_stdout_refl
               | apply write_file_same_stdout
               | apply (keeps_forM _ same_stdout_refl same_stdout_trans);
                 intros [? ?] _
               | frame_step same_stdout_refl same_stdout_trans ].
Qed.

End EffectFrames.

(** ** Lists of steps *)

Section Loops.

Context {P : Platform} {L : Sublib}.

Lemma kept_step {A} (R : World -> World -> Prop) (m : M A)
    (w w1 : World) (r : result A) :
  keeps R m -> m w = (r, w1) -> R w w1.
Proof. intros H E. specialize (H w). now rewrite E in H. Qed.

(** A list built by steps that change nothing holds, for each element,
    what its step returns in the world the list was built in. *)
Lemma mapM_ok_unchanged {A B} (f : A -> M B) (xs : list A) (ys : list B)
    (w w' : World) :
  (forall x, keeps unchanged (f x)) ->
  mapM f xs w = (Ok ys, w') ->
  w' = w /\ Forall2 (fun x y => f x w = (Ok y, w)) xs ys.
Proof.
  intros Hf. revert ys w'. induction xs as [| x tl IH]; intros ys w' H.
  - cbn in H. unfold ret in H. injection H as <- <-. auto.
  - cbn [mapM] in H.
    apply bind_ok in H as (y & w1 & Hy & H).
    pose proof (kept_step _ _ _ _ _ (Hf x) Hy) as E. unfold unchanged in E.
    subst w1.
    apply bind_ok in H as (ys' & w2 & Hys & H).
    destruct (IH _ _ Hys) as [-> Hall].
    unfold ret in H. injection H as <- <-. auto.
Qed.

(** A loop that ends normally has run every step to a normal end. *)
Lemma forM_ok {A} (f : A -> M unit) (xs : list A) (w w' : World) :
  forM f xs w = (Ok tt, w') ->
  Forall (fun x => exists wa wb, f x wa = (Ok tt, wb)) xs.
Proof.
  revert w. induction xs as [| x tl IH]; intros w H; [constructor |].
  cbn [forM] in H. apply bind_ok in H as ([] & w1 & Hx & H).
  constructor; [eauto | eapply IH; eassumption].
Qed.

Lemma write_file_of_dict_raises (d : input_file) (file : output_file)
    (form : string) (w w' : World) :
  write_file (Dict d) file form w <> (Ok tt, w').
Proof.
  unfold write_file. intros H.
  apply bind_ok in H as (new & w1 & _ & H).
  apply bind_ok in H as (g & w2 & Hg & _).
  cbn in Hg. unfold raise in Hg. discriminate.
Qed.

Lemma in_combine_of_map {A B C} (Q : A -> B -> Prop) (g : A -> C)
    (xs : list A) (ys : list B) :
  Forall2 Q xs ys ->
  forall x, In x xs -> exists y, Q x y /\ In (y, g x) (combine ys (map g xs)).
Proof.
  induction 1 as [| x y xs ys Hxy Hrest IH]; intros a Ha; [contradiction |].
  destruct Ha as [<- | Ha].
  - exists y. split; [assumption | now left].
  - destruct (IH a Ha) as [b [Hb Hin]]. exists b. split; [assumption |].
    now right.
Qed.

Lemma find_files_same_disk (path : string) (w w1 : World) :
  disk w1 = disk w ->
  fst (find_files path w1) = fst (find_files path w).
Proof.
  intros D. rewrite !find_files_cases, D.
  destruct (Disk.resolve (disk w) path) as [[data | es | r] |]; reflexivity.
Qed.

End Loops.

(** ** The [convert] command *)

Section ConvertCommand.

Context {P : Platform} {L : Sublib}.

(** What a [convert] run that ends normally went through. *)
Lemma main_convert_ok (path form : string) (log : option string)
    (w w' : World) :
  main (Convert path form log) w = (Ok tt, w') ->
  exists w1 w2 w3 files input_files subtitles,
    disk w1 = disk w
    /\ find_files (normabs path) w1 = (Ok files, w1)
    /\ mapM input_record files w1 = (Ok input_files, w1)
    /\ disk w2 = disk w
    /\ mapM get_subtitle input_files w2 = (Ok subtitles, w2)
    /\ forM (fun '(subtitle, file) => write_file subtitle file form)
         (combine subtitles (map (output_record form) input_files)) w2
       = (Ok tt, w3)
    /\ disk w' = disk w3.
Proof.
  unfold main. cbn [ns_command ns_path ns_log ns_form].
  change (command_is (Some "convert") "convert") with true. cbv iota.
  intros H.
  apply bind_ok in H as (p & wa & Hp & H). unfold ret in Hp.
  injection Hp as <- <-.
  apply bind_ok in H as (l & wa & Hl & H). unfold ret in Hl.
  injection Hl as <- <-.
  apply bind_ok in H as ([] & wa & Hset & H).
  assert (Da : disk wa = disk w).
  { apply logger_setup_ok in Hset as [_ ->]. reflexivity. }
  apply bind_ok in H as ([] & wb & Hstart & H).
  pose proof (kept_step _ _ _ _ _ (emit_same_disk _ _ _ _) Hstart) as Db.
  apply bind_ok in H as (root & wc & Hroot & H).
  unfold get_disk in Hroot. injection Hroot as <- <-.
  apply bind_ok in H as ([] & wd & Hexists & H).
  assert (Dd : disk wd = disk wb).
  { destruct (Disk.exists_ (disk wb) (normabs path)).
    - exact (kept_step _ _ _ _ _ (emit_same_disk _ _ _ _) Hexists).
    - apply bind_ok in Hexists as (? & ? & _ & Hexists).
      apply bind_ok in Hexists as (? & ? & _ & Hexists).
      unfold raise in Hexists. discriminate. }
  clear Hexists.
  apply bind_ok in H as ([] & we & Hbody & Hend).
  pose proof (kept_step _ _ _ _ _ end_same_disk Hend) as De.
  apply bind_ok in Hbody as (f & wf & Hf & Hbody). unfold ret in Hf.
  injection Hf as <- <-.
  apply bind_ok in Hbody as (files & wf & Hfiles & Hbody).
  pose proof (kept_step _ _ _ _ _ (find_files_unchanged _) Hfiles) as ->.
  apply bind_ok in Hbody as (input_files & wg & Hin & Hbody).
  pose proof (kept_step _ _ _ _ _
                (keeps_mapM _ unchanged_refl unchanged_trans _ _
                   input_record_unchanged) Hin) as ->.
  apply bind_ok in Hbody as ([] & wh & Hlog1 & Hbody).
  pose proof (kept_step _ _ _ _ _ (emit_same_disk _ _ _ _) Hlog1) as Dh.
  apply bind_ok in Hbody as ([] & wi & Hlog2 & Hbody).
  pose proof (kept_step _ _ _ _ _ (emit_same_disk _ _ _ _) Hlog2) as Di.
  apply bind_ok in Hbody as (subtitles & wj & Hsubs & Hbody).
  pose proof (kept_step _ _ _ _ _
                (keeps_mapM _ unchanged_refl unchanged_trans _ _
                   get_subtitle_unchanged) Hsubs) as ->.
  unfold same_disk in *.
  exists wd, wi, we, files, input_files, subtitles.
  repeat split; try assumption; congruence.
Qed.

End ConvertCommand.

Section ConvertProperties.

Context {P : Platform} {L : Sublib}.

(** A [convert] run that ends normally has found only files whose detected
    format is one of mpl, srt, sub and tmp: one file of another format in
    the batch and [main] raises. *)
Theorem completed_conversion_has_known_formats
    (path form : string) (log : option string) (w w' : World)
    (Hok : main (Convert path form log) w = (Ok tt, w')) :
  exists files,
    fst (find_files (normabs path) w) = Ok files
    /\ Forall (fun file =>
                 exists bytes tag c,
                   Disk.read (disk w) file = Ok bytes
                   /\ sublib_detect (disk w) file (chardet_encoding bytes)
                      = Ok tag
                   /\ adapter_of_tag tag = Some c) files.
Proof.
  apply main_convert_ok in Hok
    as (w1 & w2 & w3 & files & input_files & subtitles
        & D1 & Hfiles & Hin & D2 & Hsubs & Hloop & _).
  exists files. split.
  - rewrite <- (find_files_same_disk _ _ _ D1). now rewrite Hfiles.
  - apply mapM_ok_unchanged in Hin as [_ Hin];
      [| apply input_record_unchanged].
    apply mapM_ok_unchanged in Hsubs as [_ Hsubs];
      [| apply get_subtitle_unchanged].
    apply forM_ok in Hloop. rewrite Forall_forall in Hloop.
    apply Forall_forall. intros file Hfile.
    destruct (in_combine_of_map _ (fun x => x) _ _ Hin file Hfile)
      as (r & Hr & Hr_in).
    apply in_combine_l in Hr_in.
    apply input_record_ok in Hr as (bytes & R & Dt & _ & _).
    rewrite D1 in R, Dt.
    exists bytes, (in_format r).
    destruct (adapter_of_tag (in_format r)) as [c |] eqn:T; [eauto |].
    exfalso.
    destruct (in_combine_of_map _ (output_record form) _ _ Hsubs r Hr_in)
      as (s & Hs & Hs_in).
    rewrite (get_subtitle_unknown _ _ T) in Hs. injection Hs as <-.
    destruct (Hloop _ Hs_in) as (wa & wb & Hwrite).
    exact (write_file_of_dict_raises _ _ _ _ _ Hwrite).
Qed.

(** [main] prints nothing while converting: after a [convert] run the
    standard output holds either what it held before or, when an exception
    was caught, the two lines of the error report in addition. *)
Theorem convert_prints_only_the_error_report
    (path form : string) (log : option string) (w : World) :
  stdout (snd (run (Convert path form log) w))
  = match fst (main (Convert path form log) w) with
    | Ok _ => stdout w
    | Raise e =>
        if is_Exception e
        then (stdout w ++ ["An unknown error has occurred:"; exc_info e])%list
        else stdout w
    end.
Proof.
  pose proof (main_convert_same_stdout path form log w) as H.
  unfold run, same_stdout in *.
  destruct (main (Convert path form log) w) as [[[] | e] w1]; cbn in *.
  - exact H.
  - destruct (is_Exception e) eqn:E.
    + cbn. rewrite H, <- app_assoc. reflexivity.
    + destruct e; try discriminate; exact H.
Qed.

End ConvertProperties.

Lemma completed_conversion_has_known_formats_witness :
  exists files,
    fst (find_files "C:\a.srt" Example.lone_world) = Ok files
    /\ Forall (fun file =>
                 exists bytes tag c,
                   Disk.read Example.lone file = Ok bytes
                   /\ sublib_detect (Sublib := Example.lib) Example.lone file
                        (chardet_encoding (Platform := Example.platform) bytes)
                      = Ok tag
                   /\ adapter_of_tag tag = Some c) files.
Proof.
  exact (completed_conversion_has_known_formats (P := Example.platform)
           (L := Example.lib) "C:\a.srt" "tmp" None Example.lone_world
           (mkWorld Example.lone_converted None CRITICAL []) eq_refl).
Defined.

(** ** The [detect] command *)

Section DetectCommand.

Context {P : Platform} {L : Sublib}.




(** The [detect] command writes no file but the log file: whatever the
    path, the option and the outcome, every other file reads after the run
    as it read before. *)
Theorem detect_writes_only_the_log
    (path : string) (log : option string) (w : World) :
  only_touches [log_file (Detect path log)] w (snd (run (Detect path log) w)).
Proof.
  pose proof (main_detect_same_disk path log w) as H.
  assert (D : disk (snd (run (Detect path log) w)) = disk w).
  { unfold run, same_disk in *.
    destruct (main (Detect path log) w) as [[[] | e] w1]; cbn in *.
    - exact H.
    - destruct (is_Exception e); [exact H |].
      destruct e; exact H. }
  intros q _. now rewrite D.
Qed.



End DetectCommand.


(** ** The log *)

Section Log.

Context {P : Platform} {L : Sublib}.

Lemma emit_on (level : Z) (name func msg : string) (w : World)
    (records : list log_record) :
  (log_level w <=? level) = true ->
  logfile w = Some records ->
  emit level name func msg w
  = (Ok tt, with_logfile w (Some (records ++ [LogRecord name func msg])%list)).
Proof. unfold emit. now intros -> ->. Qed.

Lemma emit_off (level : Z) (name func msg : string) (w : World) :
  (log_level w <=? level) = false ->
  emit level name func msg w = (Ok tt, w).
Proof. unfold emit. now intros ->. Qed.

Lemma emit_cases (level : Z) (name func msg : string) (w : World)
    (records : list log_record) :
  logfile w = Some records ->
  exists w',
    emit level name func msg w = (Ok tt, w')
    /\ log_level w' = log_level w
    /\ disk w' = disk w
    /\ logfile w'
       = Some (records ++ (if log_level w <=? level
                           then [LogRecord name func msg] else []))%list.
Proof.
  intros F. unfold emit. rewrite F. destruct (log_level w <=? level).
  - eexists. split; [reflexivity |]. cbn. auto.
  - exists w. rewrite app_nil_r. auto.
Qed.

Lemma info_quiet (func msg : string) : keeps quiet (logger_info func msg).
Proof.
  intros w Hw. unfold logger_info. rewrite emit_off; [auto |].
  rewrite Hw. reflexivity.
Qed.

Lemma print_quiet (line : string) : keeps quiet (print line).
Proof. intros w Hw. auto. Qed.

Lemma open_wt_writelines_quiet (path : string) (e : option string)
    (lines : list string) :
  keeps quiet (open_wt_writelines path e lines).
Proof.
  intros w Hw. unfold open_wt_writelines.
  destruct (Disk.write (disk w) path []); [| auto].
  destruct (text_encode e (String.concat "" lines)) as [data |]; [| auto].
  destruct (Disk.write (disk w) path data); auto.
Qed.

Ltac quiet_leaf :=
  first
    [ apply (keeps_unchanged _ quiet_refl);
      first [ apply find_files_unchanged | apply detect_encoding_unchanged
            | apply input_record_unchanged | apply get_subtitle_unchanged
            | apply getitem_unchanged ]
    | apply info_quiet | apply print_quiet | apply open_wt_writelines_quiet ].

Lemma write_file_quiet (subtitle : object) (file : output_file)
    (form : string) :
  keeps quiet (write_file subtitle file form).
Proof.
  unfold write_file, call_get_general_format, call_set_from_general_format,
    attr_path, attr_content.
  repeat first [ quiet_leaf | frame_step quiet_refl quiet_trans ].
Qed.

(** What [main] does between the test of the path and the call of [end]. *)
Lemma command_quiet (arguments : Namespace) (path : string) :
  keeps quiet
    (if command_is (ns_command arguments) "convert" then
       form <- ns_form arguments ;;
       files <- find_files path ;;
       input_files <- mapM input_record files ;;
       logger_info "main"
         ("Input files: " ++ repr_list (map (fun f => basename (in_path f))
                                           input_files)) ;;
       let output_files := map (output_record form) input_files in
       logger_info "main"
         ("Output files: " ++ repr_list (map (fun f => basename (out_path f))
                                            output_files)) ;;
       input_subtitles <- mapM get_subtitle input_files ;;
       forM (fun '(subtitle, file) => write_file subtitle file form)
            (combine input_subtitles output_files)
     else if command_is (ns_command arguments) "detect" then
       files <- find_files path ;;
       forM (fun file =>
               encoding <- detect_encoding file ;;
               root <- get_disk ;;
               form <- lift (sublib_detect root file encoding) ;;
               name <- getitem forms form ;;
               let message :=
                 basename file ++ " is in " ++ name ++ " format" in
               logger_info "main" message ;;
               print message)
            files
     else ret tt).
Proof.
  unfold ns_form. cbv zeta.
  repeat first [ quiet_leaf
               | apply write_file_quiet
               | apply (keeps_forM _ quiet_refl quiet_trans); intros ? _
               | frame_step quiet_refl quiet_trans ].
Qed.

(** Without the [--log] option (or with an empty value) the threshold is
    [CRITICAL]: a run that ends normally has appended nothing to the default
    log file, and [end] has removed that file when it holds no record. *)
Theorem without_log_option_nothing_is_logged
    (arguments : Namespace) (w w' : World)
    (Hoff : truthy (log_option arguments) = false)
    (Hok : main arguments w = (Ok tt, w')) :
  logfile w' = match records_of w with
               | [] => None
               | records => Some records
               end.
Proof.
  unfold main in Hok.
  apply bind_ok in Hok as (p & wa & Hp & H).
  assert (wa = w) as ->
    by (destruct arguments; cbn in Hp; unfold ret, raise in Hp; congruence).
  apply bind_ok in H as (l & wa & Hl & H).
  assert (l = log_option arguments /\ wa = w) as [-> ->].
  { destruct arguments; cbn in Hl; unfold ret, raise in Hl;
      try discriminate; injection Hl as <- <-; auto. }
  rewrite Hoff in H.
  apply bind_ok in H as ([] & wa & Hset & H).
  unfold set_logger in Hset.
  destruct (log_opens (normabs default_logfile)); try discriminate.
  injection Hset as <-.
  fold (records_of w) in H.
  set (w1 := mkWorld (disk w) (Some (records_of w)) CRITICAL (stdout w)) in H.
  assert (Q1 : log_level w1 = CRITICAL) by reflexivity.
  apply bind_ok in H as ([] & wb & Hstart & H).
  destruct (kept_step _ _ _ _ _ (info_quiet _ _) Hstart Q1) as [Q2 F2].
  apply bind_ok in H as (root & wc & Hroot & H).
  unfold get_disk in Hroot. injection Hroot as <- <-.
  apply bind_ok in H as ([] & wd & Hexists & H).
  assert (Q3 : log_level wd = CRITICAL /\ logfile wd = logfile wb).
  { destruct (Disk.exists_ (disk wb) (normabs p)).
    - exact (kept_step _ _ _ _ _ (info_quiet _ _) Hexists Q2).
    - apply bind_ok in Hexists as (? & ? & _ & Hexists).
      apply bind_ok in Hexists as (? & ? & _ & Hexists).
      unfold raise in Hexists. discriminate. }
  destruct Q3 as [Q3 F3].
  apply bind_ok in H as ([] & we & Hbody & Hend).
  destruct (kept_step _ _ _ _ _ (command_quiet arguments (normabs p))
              Hbody Q3) as [Q4 F4].
  unfold end_ in Hend.
  apply bind_ok in Hend as ([] & wf & He1 & Hend).
  destruct (kept_step _ _ _ _ _ (info_quiet _ _) He1 Q4) as [Q5 F5].
  apply bind_ok in Hend as ([] & wg & He2 & Hend).
  destruct (kept_step _ _ _ _ _ (info_quiet _ _) He2 Q5) as [Q6 F6].
  assert (F : logfile wg = Some (records_of w)) by (cbn in F2; congruence).
  rewrite F in Hend.
  destruct (records_of w) as [| r rs]; injection Hend as <-; cbn; congruence.
Qed.

(** A path that does not exist is logged whenever the log file can be
    opened (and is a file other than that path): the run leaves the log
    file with the record of level CRITICAL appended, alone when [--log] was
    not given, between START and the two records of [end] when it was. *)
Theorem missing_path_is_logged
    (arguments : Namespace) (path : string) (w : World)
    (Hpath : path_argument arguments = Some path)
    (Hmissing : Disk.exists_ (disk w) (normabs path) = false)
    (Hopen : log_opens (log_file arguments) = true)
    (Hapart : Disk.components (log_file arguments)
              <> Disk.components (normabs path)) :
  let critical :=
    LogRecord "CRITICAL" "main" ("Path does not exists: " ++ normabs path) in
  logfile (snd (main arguments w))
  = Some (records_of w ++
          (if truthy (log_option arguments)
           then [LogRecord "INFO" "main" "START"; critical;
                 LogRecord "INFO" "end" ("Execution time: " ++ elapsed ++ "s");
                 LogRecord "INFO" "end" "END"]
           else [critical]))%list.
Proof.
  intros critical.
  assert (Hargs : ns_path arguments w = (Ok path, w)
                  /\ ns_log arguments w = (Ok (log_option arguments), w)).
  { destruct arguments; cbn in *; try discriminate;
      injection Hpath as ->; auto. }
  destruct Hargs as [Hp Hl].
  unfold main. rewrite (bind_step _ _ _ _ _ Hp), (bind_step _ _ _ _ _ Hl).
  set (level := if truthy (log_option arguments) then INFO else CRITICAL).
  destruct (logger_setup_steps (log_option arguments) w Hopen)
    as (w1 & E1 & D1 & _ & F1 & V1).
  fold level in V1.
  rewrite (bind_step _ _ _ _ _ E1).
  destruct (emit_cases INFO "INFO" "main" "START" w1 _ F1)
    as (w2 & E2 & V2 & D2 & F2).
  unfold logger_info at 1. rewrite (bind_step _ _ _ _ _ E2).
  unfold get_disk at 1. unfold bind at 1.
  replace (Disk.exists_ (disk w2) (normabs path)) with false by congruence.
  destruct (emit_cases CRITICAL "CRITICAL" "main"
              ("Path does not exists: " ++ normabs path) w2 _ F2)
    as (w3 & E3 & V3 & D3 & F3).
  destruct (emit_cases INFO "INFO" "end"
              ("Execution time: " ++ elapsed ++ "s") w3 _ F3)
    as (w4 & E4 & V4 & D4 & F4).
  destruct (emit_cases INFO "INFO" "end" "END" w4 _ F4)
    as (w5 & E5 & V5 & D5 & F5).
  assert (Hc : (log_level w2 <=? CRITICAL) = true).
  { rewrite V2, V1. subst level.
    destruct (truthy (log_option arguments)); reflexivity. }
  assert (Hfail :
            (logger_critical "main" ("Path does not exists: " ++ normabs path) ;;
             end_ ;;
             @raise unit
               (SystemExit ("Path does not exists: " ++ normabs path))) w2
            = (Raise (SystemExit ("Path does not exists: " ++ normabs path)),
               w5)).
  { unfold logger_critical. rewrite (bind_step _ _ _ _ _ E3).
    unfold end_, logger_info.
    assert (Hend : (emit INFO "INFO" "end"
                      ("Execution time: " ++ elapsed ++ "s") ;;
                    emit INFO "INFO" "end" "END" ;;
                    (fun w0 =>
                       match logfile w0 with
                       | Some [] => (Ok tt, with_logfile w0 None)
                       | Some (_ :: _) => (Ok tt, w0)
                       | None => (Raise (OSError default_logfile), w0)
                       end)) w3 = (Ok tt, w5)).
    { rewrite (bind_step _ _ _ _ _ E4), (bind_step _ _ _ _ _ E5), F5, Hc.
      rewrite <- !app_assoc.
      destruct (records_of w); destruct (log_level w1 <=? INFO); reflexivity. }
    rewrite (bind_step _ _ _ _ _ Hend). reflexivity. }
  rewrite (bind_raise _ _ _ _ _ Hfail). cbn [snd].
  rewrite F5, Hc, V4, V3, V2, V1. subst level critical.
  destruct (truthy (log_option arguments)); cbn [Z.leb Z.compare INFO CRITICAL];
    rewrite <- !app_assoc; reflexivity.
Qed.

(** Without a sub-command the namespace has no attribute [path]: [main]
    raises before it opens a log or looks at the disk, and the run reports
    an unknown error on the standard output and ends with status 0. *)
Theorem no_command_is_an_unknown_error (w : World) :
  run NoCommand w
  = (Outcome 0 None,
     mkWorld (disk w) (logfile w) (log_level w)
       (stdout w ++ ["An unknown error has occurred:";
                     exc_info (AttributeError "path")])%list).
Proof.
  unfold run. cbn. now rewrite <- app_assoc.
Qed.

End Log.

Lemma without_log_option_nothing_is_logged_witness :
  logfile (mkWorld Example.lone_converted None CRITICAL [])
  = match records_of Example.lone_world with
    | [] => None
    | records => Some records
    end.
Proof.
  exact (without_log_option_nothing_is_logged (P := Example.platform)
           (L := Example.lib) (Convert "C:\a.srt" "tmp" None)
           Example.lone_world _ eq_refl eq_refl).
Defined.

Lemma missing_path_is_logged_witness :
  logfile (snd (main (P := Example.platform) (L := Example.lib)
                  (Detect "C:\zzz" None) Example.lone_world))
  = Some [LogRecord "CRITICAL" "main" "Path does not exists: C:\zzz"].
Proof.
  apply (missing_path_is_logged (P := Example.platform) (L := Example.lib)
           (Detect "C:\zzz" None) "C:\zzz" Example.lone_world).
  - reflexivity.
  - reflexivity.
  - reflexivity.
  - vm_compute. discriminate.
Defined.

(** ** What a conversion writes *)

Section WrittenFiles.

Context {P : Platform} {L : Sublib}.

Lemma assoc_set_entry_other (name other : string) (x : node)
    (es : list (string * node)) :
  other <> name ->
  Disk.assoc other (Disk.set_entry name x es) = Disk.assoc other es.
Proof.
  intros Hne. induction es as [| [k y] tl IH]; cbn [Disk.set_entry Disk.assoc].
  - destruct (String.eqb name other) eqn:E; [| reflexivity].
    apply String.eqb_eq in E. congruence.
  - destruct (String.eqb k name) eqn:E; cbn [Disk.assoc].
    + apply String.eqb_eq in E. subst k.
      destruct (String.eqb name other) eqn:E'; [| reflexivity].
      apply String.eqb_eq in E'. congruence.
    + destruct (String.eqb k other); [reflexivity | exact IH].
Qed.

(** Storing a file changes what a reader gets at no other place. *)
Lemma store_frame (ps : list string) (data : list byte) :
  forall n n' qs,
    Disk.store ps data n = Some n' ->
    qs <> ps ->
    content (Disk.descend qs n') = content (Disk.descend qs n).
Proof.
  induction ps as [| c rest IH]; intros n n' qs H Hne.
  - destruct n; cbn in H; try discriminate. injection H as <-.
    destruct qs; [contradiction | reflexivity].
  - cbn [Disk.store] in H. destruct n as [| es |]; try discriminate.
    destruct qs as [| c' rest']; [now destruct (Disk.assoc c es);
      [destruct (Disk.store rest data n) | destruct rest];
      try discriminate; injection H as <- |].
    destruct (String.eqb c' c) eqn:E.
    + apply String.eqb_eq in E. subst c'.
      assert (Hrest : rest' <> rest) by congruence.
      destruct (Disk.assoc c es) as [child |] eqn:A.
      * destruct (Disk.store rest data child) as [child' |] eqn:S;
          try discriminate.
        injection H as <-. cbn [Disk.descend].
        rewrite assoc_set_entry, A. eapply IH; eassumption.
      * destruct rest; try discriminate. injection H as <-.
        cbn [Disk.descend]. rewrite assoc_set_entry, A.
        destruct rest'; [contradiction | reflexivity].
    + apply String.eqb_neq in E.
      assert (Hsame : forall x,
                 Disk.descend (c' :: rest') (Directory (Disk.set_entry c x es))
                 = Disk.descend (c' :: rest') (Directory es)).
      { intros x. cbn [Disk.descend]. now rewrite assoc_set_entry_other. }
      destruct (Disk.assoc c es) as [child |].
      * destruct (Disk.store rest data child); try discriminate.
        injection H as <-. now rewrite Hsame.
      * destruct rest; try discriminate. injection H as <-. now rewrite Hsame.
Qed.

Lemma read_content (root : node) (path : string) :
  Disk.read root path
  = match content (Disk.resolve root path) with
    | Some data => Ok data
    | None => Raise (OSError path)
    end.
Proof.
  unfold Disk.read, content.
  destruct (Disk.resolve root path) as [[data | es | [data |]] |]; reflexivity.
Qed.

Lemma write_frame (root root' : node) (path q : string) (data : list byte) :
  Disk.write root path data = Ok root' ->
  Disk.components q <> Disk.components path ->
  Disk.read root' q = Disk.read root q.
Proof.
  unfold Disk.write. intros H Hne.
  destruct (Disk.nonempty path); try discriminate.
  destruct (Disk.store (Disk.components path) data root) eqn:S;
    try discriminate.
  injection H as <-. rewrite !read_content. unfold Disk.resolve.
  destruct (Disk.nonempty q); [| reflexivity].
  now rewrite (store_frame _ _ _ _ _ S Hne).
Qed.

Lemma only_touches_refl (paths : list string) (w : World) :
  only_touches paths w w.
Proof. intros q _. reflexivity. Qed.

Lemma only_touches_trans (paths : list string) (a b c : World) :
  only_touches paths a b -> only_touches paths b c -> only_touches paths a c.
Proof. intros H1 H2 q Hq. now rewrite (H2 q Hq), (H1 q Hq). Qed.

Lemma only_touches_same_disk (paths : list string) {A} (m : M A) :
  keeps same_disk m -> keeps (only_touches paths) m.
Proof. intros H w q _. now rewrite (H w). Qed.

Lemma open_wt_writelines_touches (paths : list string) (path : string)
    (e : option string) (lines : list string) :
  In path paths ->
  keeps (only_touches paths) (open_wt_writelines path e lines).
Proof.
  intros Hin w q Hq. specialize (Hq path Hin). unfold open_wt_writelines.
  destruct (Disk.write (disk w) path []) as [truncated |] eqn:T;
    [| reflexivity].
  destruct (text_encode e (String.concat "" lines)) as [data |].
  - destruct (Disk.write (disk w) path data) as [written |] eqn:W; cbn.
    + exact (write_frame _ _ _ _ _ W Hq).
    + exact (write_frame _ _ _ _ _ T Hq).
  - cbn. exact (write_frame _ _ _ _ _ T Hq).
Qed.

Lemma write_file_touches (paths : list string) (subtitle : object)
    (file : output_file) (form : string) :
  In (out_path file) paths ->
  keeps (only_touches paths) (write_file subtitle file form).
Proof.
  intros Hin.
  unfold write_file, call_get_general_format, call_set_from_general_format,
    attr_path, attr_content, logger_info.
  repeat first
    [ apply open_wt_writelines_touches; exact Hin
    | apply only_touches_same_disk, emit_same_disk
    | apply (keeps_unchanged _ (only_touches_refl paths)),
        get_subtitle_unchanged
    | frame_step (only_touches_refl paths) (only_touches_trans paths) ].
Qed.

End WrittenFiles.

Section ConvertWrites.

Context {P : Platform} {L : Sublib}.

Lemma kept_bind_from (R : World -> World -> Prop)
    (R_trans : forall a b c, R a b -> R b c -> R a c)
    {A B} (m : M A) (k : A -> M B) (w : World) :
  R w (snd (m w)) ->
  (forall a w1, m w = (Ok a, w1) -> R w1 (snd (k a w1))) ->
  R w (snd (bind m k w)).
Proof.
  intros Hm Hk. unfold bind. destruct (m w) as [[a | e] w1]; cbn in *.
  - eapply R_trans; [exact Hm | now apply Hk].
  - exact Hm.
Qed.

Lemma Forall2_in_r {A B} (Q : A -> B -> Prop) (xs : list A) (ys : list B) :
  Forall2 Q xs ys -> forall y, In y ys -> exists x, In x xs /\ Q x y.
Proof.
  induction 1 as [| x y xs ys Hxy Hrest IH]; intros b Hb; [contradiction |].
  destruct Hb as [<- | Hb].
  - exists x. split; [now left | assumption].
  - destruct (IH b Hb) as [a [Ha Hq]]. exists a. split; [now right | assumption].
Qed.

(** The output file of a record made from a found file is among the output
    paths of the files found. *)
Lemma output_record_in_paths (form : string) (files : list string)
    (input_files : list input_file) (w : World) (file : output_file) :
  Forall2 (fun x y => input_record x w = (Ok y, w)) files input_files ->
  In file (map (output_record form) input_files) ->
  In (out_path file) (output_paths form files).
Proof.
  intros Hall Hin. apply in_map_iff in Hin as (r & <- & Hr).
  destruct (Forall2_in_r _ _ _ Hall r Hr) as (x & Hx & Hrec).
  apply input_record_ok in Hrec as (_ & _ & _ & Hpath & _).
  unfold output_paths. apply in_map_iff. exists x. split; [| assumption].
  cbn [output_record out_path]. unfold get_new_path. cbn [in_path].
  now rewrite Hpath.
Qed.

Lemma main_convert_touches (path form : string) (log : option string)
    (w : World) :
  only_touches
    (match fst (find_files (normabs path) w) with
     | Ok files => output_paths form files
     | Raise _ => []
     end) w (snd (main (Convert path form log) w)).
Proof.
  set (paths := match fst (find_files (normabs path) w) with
                | Ok files => output_paths form files
                | Raise _ => []
                end).
  pose proof (only_touches_refl paths) as Rrefl.
  pose proof (only_touches_trans paths) as Rtrans.
  unfold main. cbn [ns_command ns_path ns_log ns_form].
  change (command_is (Some "convert") "convert") with true. cbv iota.
  apply (kept_bind_from _ Rtrans); [apply Rrefl |].
  intros p w0 Hp. unfold ret in Hp. injection Hp as <- <-.
  apply (kept_bind_from _ Rtrans); [apply Rrefl |].
  intros l w0 Hl. unfold ret in Hl. injection Hl as <- <-.
  assert (Kset : keeps same_disk
                   (if truthy log
                    then set_logger (match log with Some x => x | None => "" end)
                           INFO
                    else set_logger default_logfile CRITICAL))
    by (destruct (truthy log); apply set_logger_same_disk).
  apply (kept_bind_from _ Rtrans);
    [apply (only_touches_same_disk paths _ Kset) |].
  intros [] w1 E1. pose proof (kept_step _ _ _ _ _ Kset E1) as D1.
  apply (kept_bind_from _ Rtrans);
    [apply (only_touches_same_disk paths), emit_same_disk |].
  intros [] w2 E2.
  pose proof (kept_step _ _ _ _ _ (emit_same_disk _ _ _ _) E2) as D2.
  apply (kept_bind_from _ Rtrans); [apply Rrefl |].
  intros root w0 Hroot. unfold get_disk in Hroot. injection Hroot as <- <-.
  assert (Kexists : keeps same_disk
            (if Disk.exists_ (disk w2) (normabs path)
             then logger_info "main" ("Path: " ++ normabs path)
             else
               logger_critical "main"
                 ("Path does not exists: " ++ normabs path) ;;
               end_ ;;
               @raise unit
                 (SystemExit ("Path does not exists: " ++ normabs path)))).
  { destruct (Disk.exists_ (disk w2) (normabs path)).
    - apply emit_same_disk.
    - apply (keeps_bind _ same_disk_trans); [apply emit_same_disk | intros _].
      apply (keeps_bind _ same_disk_trans); [apply end_same_disk | intros _].
      apply keeps_raise, same_disk_refl. }
  apply (kept_bind_from _ Rtrans);
    [apply (only_touches_same_disk paths _ Kexists) |].
  intros [] w3 E3. pose proof (kept_step _ _ _ _ _ Kexists E3) as D3.
  assert (D : disk w3 = disk w) by (unfold same_disk in *; congruence).
  apply (kept_bind_from _ Rtrans);
    [| intros [] w4 _; apply (only_touches_same_disk paths), end_same_disk].
  apply (kept_bind_from _ Rtrans); [apply Rrefl |].
  intros f w0 Hf. unfold ret in Hf. injection Hf as <- <-.
  apply (kept_bind_from _ Rtrans);
    [apply (keeps_unchanged _ Rrefl), find_files_unchanged |].
  intros files w4 Hfiles.
  pose proof (kept_step _ _ _ _ _ (find_files_unchanged _) Hfiles) as ->.
  assert (Hpaths : paths = output_paths form files).
  { subst paths. rewrite <- (find_files_same_disk _ _ _ D), Hfiles.
    reflexivity. }
  apply (kept_bind_from _ Rtrans);
    [apply (keeps_unchanged _ Rrefl),
       (keeps_mapM _ unchanged_refl unchanged_trans), input_record_unchanged |].
  intros input_files w4 Hin.
  apply mapM_ok_unchanged in Hin as [-> Hin]; [| apply input_record_unchanged].
  match goal with
  | |- only_touches _ w3 (snd (?m w3)) =>
      enough (K : keeps (only_touches paths) m) by exact (K w3)
  end.
  apply (keeps_bind _ Rtrans);
    [apply (only_touches_same_disk paths), emit_same_disk | intros _].
  apply (keeps_bind _ Rtrans);
    [apply (only_touches_same_disk paths), emit_same_disk | intros _].
  apply (keeps_bind _ Rtrans);
    [apply (keeps_unchanged _ Rrefl),
       (keeps_mapM _ unchanged_refl unchanged_trans), get_subtitle_unchanged |].
  intros subtitles. apply (keeps_forM _ Rrefl Rtrans).
  intros [s file] Hpair. apply in_combine_r in Hpair.
  apply write_file_touches. rewrite Hpaths.
  eapply output_record_in_paths; eassumption.
Qed.

(** A [convert] run, however it ends, changes no file but the log file and
    the output files of the files it found: every path that names none of
    them reads after the run as it read before.  The log file is taken to
    lie elsewhere than the path and the directory it names, so that opening
    it adds no file to those found. *)
Theorem convert_touches_only_output_files
    (path form : string) (log : option string) (w : World)
    (Helsewhere :
       log_elsewhere (normabs path) (log_file (Convert path form log))) :
  only_touches
    (log_file (Convert path form log)
     :: match fst (find_files (normabs path) w) with
        | Ok files => output_paths form files
        | Raise _ => []
        end) w (snd (run (Convert path form log) w)).
Proof.
  pose proof (main_convert_touches path form log w) as H.
  intros q Hq.
  rewrite <- (H q (fun p Hin => Hq p (or_intror Hin))). unfold run.
  destruct (main (Convert path form log) w) as [[[] | e] w1]; cbn [snd];
    [reflexivity |].
  destruct (is_Exception e); [reflexivity |]. now destruct e.
Qed.

End ConvertWrites.

Lemma convert_touches_only_output_files_witness :
  only_touches
    ["sublib_cli.log"; "C:\subs\a.txt"; "C:\subs\empty.txt";
     "C:\subs\notes.txt"]
    Example.world
    (snd (run (P := Example.platform) (L := Example.lib)
            (Convert "C:\subs" "tmp" None) Example.world)).
Proof.
  apply (convert_touches_only_output_files (P := Example.platform)
           (L := Example.lib) "C:\subs" "tmp" None Example.world).
  split.
  - vm_compute. discriminate.
  - intros name. vm_compute. discriminate.
Defined.

(** ** Output paths that meet *)

Section MeetingPaths.

Context {P : Platform} {L : Sublib}.

Lemma stem_of_path (stem ext : string) :
  Py.has_char dot ext = false ->
  Py.slice_to (stem ++ "." ++ ext) (Py.rfind (stem ++ "." ++ ext) ".") = stem.
Proof.
  intros Hext. unfold Py.rfind. change ("." ++ ext) with (String dot ext).
  rewrite rfind_go_last_dot by assumption. cbn [Z.add].
  apply slice_to_stem.
Qed.

Lemma canonical_extension_plain (form : string) :
  Py.has_char dot (canonical_extension form) = false.
Proof.
  unfold canonical_extension.
  repeat match goal with
         | |- context [String.eqb ?a ?b] => destruct (String.eqb a b)
         end; reflexivity.
Qed.

(** Two files that differ in their extension only are given the same
    output path, whatever the target. *)
Theorem same_stem_same_output
    (stem ext1 ext2 : string) (e1 e2 : option string) (f1 f2 form : string)
    (Hext1 : Py.has_char dot ext1 = false)
    (Hext2 : Py.has_char dot ext2 = false) :
  out_path (output_record form (InputFile (stem ++ "." ++ ext1) e1 f1))
  = out_path (output_record form (InputFile (stem ++ "." ++ ext2) e2 f2)).
Proof.
  cbn [output_record out_path]. rewrite !get_new_path_unfold.
  cbn [in_path]. now rewrite !stem_of_path.
Qed.

Lemma find_files_regular (path : string) (w : World) :
  Disk.isfile (disk w) path = true -> find_files path w = (Ok [path], w).
Proof.
  rewrite find_files_cases. unfold Disk.isfile.
  destruct (Disk.resolve (disk w) path) as [[data | es | r] |];
    try discriminate; reflexivity.
Qed.

(** What a [get_subtitle] that returned an object has done. *)
Lemma get_subtitle_instance (d : input_file) (src : subtitle) (w w' : World) :
  get_subtitle d w = (Ok (Instance src), w') ->
  exists c,
    adapter_of_tag (in_format d) = Some c
    /\ sub_new c (disk w) (in_path d) (in_encoding d) = Ok src.
Proof.
  destruct (adapter_of_tag (in_format d)) as [c |] eqn:T.
  - rewrite (get_subtitle_known _ c) by assumption.
    destruct (sub_new c (disk w) (in_path d) (in_encoding d)) as [s |] eqn:E;
      intros H; try discriminate.
    injection H as <- _. eauto.
  - rewrite (get_subtitle_unknown _ _ T). discriminate.
Qed.

(** What a [write_file] that ended normally has converted and written. *)
Lemma write_file_converts (subtitle : object) (file : output_file)
    (form : string) (w w' : World) :
  write_file subtitle file form w = (Ok tt, w') ->
  exists src c new g new' data,
    subtitle = Instance src
    /\ adapter_of_tag form = Some c
    /\ sub_new c (disk w) "" (Some "") = Ok new
    /\ get_general_format src = Ok g
    /\ set_from_general_format new g = Ok new'
    /\ text_encode (out_encoding file) (written_text new') = Ok data
    /\ Disk.write (disk w) (out_path file) data = Ok (disk w').
Proof.
  unfold write_file. intros H.
  apply bind_ok in H as (target & w1 & Htarget & H).
  assert (w1 = w) as ->.
  { pose proof (get_subtitle_world (InputFile "" (Some "") form) w) as Hs.
    now rewrite Htarget in Hs. }
  apply bind_ok in H as (g & w2 & Hg & H).
  destruct subtitle as [src | d]; cbn in Hg; unfold lift, raise in Hg;
    try discriminate.
  injection Hg as Hg <-.
  apply bind_ok in H as (o & w3 & Hset & H).
  destruct target as [new | d]; cbn in Hset; unfold raise in Hset;
    try discriminate.
  apply get_subtitle_instance in Htarget as (c & Hc & Hnew).
  cbn [in_format in_path in_encoding] in Hc, Hnew.
  unfold bind, lift, ret in Hset.
  destruct (set_from_general_format new g) as [new' |] eqn:Hload;
    try discriminate.
  injection Hset as <- <-.
  apply bind_ok in H as (p & w4 & Hp & H).
  cbn in Hp. unfold ret in Hp. injection Hp as <- <-.
  apply bind_ok in H as ([] & w5 & Hlog & H).
  pose proof (kept_step _ _ _ _ _ (emit_same_disk _ _ _ _) Hlog) as D5.
  apply bind_ok in H as (content & w6 & Hcontent & H).
  cbn in Hcontent. unfold ret in Hcontent. injection Hcontent as <- <-.
  apply bind_ok in H as ([] & w7 & Hopen & H).
  apply open_wt_writelines_ok in Hopen as (data & He & Hw & _).
  pose proof (kept_step _ _ _ _ _ (emit_same_disk _ _ _ _) H) as D8.
  unfold same_disk in *.
  exists src, c, new, g, new', data.
  repeat split; try assumption. now rewrite D8, <- D5.
Qed.

(** Converting a file whose extension is already the one of the target
    writes over the file itself.  After a run that ends normally (with a
    log file other than the file converted) the path given on the command
    line holds the conversion of what it held: the lines of the target
    object, loaded with the general format of the source object that was
    built from the file, encoded with the encoding found for the file. *)
Theorem conversion_in_place
    (path form stem : string) (log : option string) (w w' : World)
    (Hform : In form choices)
    (Hpath : normabs path = stem ++ "." ++ canonical_extension form)
    (Hfile : Disk.isfile (disk w) (normabs path) = true)
    (Hapart : Disk.components (log_file (Convert path form log))
              <> Disk.components (normabs path))
    (Hok : main (Convert path form log) w = (Ok tt, w')) :
  exists bytes tag c c' src g new new' data,
    Disk.read (disk w) (normabs path) = Ok bytes
    /\ sublib_detect (disk w) (normabs path) (chardet_encoding bytes) = Ok tag
    /\ adapter_of_tag tag = Some c
    /\ sub_new c (disk w) (normabs path) (chardet_encoding bytes) = Ok src
    /\ get_general_format src = Ok g
    /\ adapter_of_tag form = Some c'
    /\ sub_new c' (disk w) "" (Some "") = Ok new
    /\ set_from_general_format new g = Ok new'
    /\ text_encode (chardet_encoding bytes) (written_text new') = Ok data
    /\ Disk.read (disk w') (normabs path) = Ok data.
Proof.
  apply main_convert_ok in Hok
    as (w1 & w2 & w3 & files & input_files & subtitles
        & D1 & Hfiles & Hin & D2 & Hsubs & Hloop & D3).
  rewrite find_files_regular in Hfiles by now rewrite D1.
  injection Hfiles as <-.
  apply mapM_ok_unchanged in Hin as [_ Hin]; [| apply input_record_unchanged].
  inversion Hin as [| ? r ? rest Hr Hrest]; subst. inversion Hrest; subst.
  apply mapM_ok_unchanged in Hsubs as [_ Hsubs];
    [| apply get_subtitle_unchanged].
  inversion Hsubs as [| ? s ? rest Hs Hrest']; subst. inversion Hrest'; subst.
  cbn [map combine forM] in Hloop.
  apply bind_ok in Hloop as ([] & w4 & Hwrite & Hret).
  unfold ret in Hret. injection Hret as <-.
  apply input_record_ok in Hr as (bytes & R & Htag & Hp & He).
  apply write_file_converts in Hwrite
    as (src & c' & new & g & new' & data
        & -> & Hc' & Hnew & Hg & Hload & Henc & Hw).
  apply get_subtitle_instance in Hs as (c & Hc & Hsrc).
  cbn [output_record out_path out_encoding] in Henc, Hw.
  assert (Hout : get_new_path r form = normabs path).
  { rewrite get_new_path_unfold, Hp, Hpath,
      (stem_of_path _ _ (canonical_extension_plain form)),
      (extension_of_choice _ Hform). reflexivity. }
  rewrite Hout in Hw. rewrite He in Henc, Hsrc. rewrite Hp in Hsrc.
  rewrite D1 in R, Htag. rewrite D2 in Hsrc, Hnew.
  exists bytes, (in_format r), c, c', src, g, new, new', data.
  repeat split; try assumption.
  rewrite D3. eapply read_after_write; eassumption.
Qed.

End MeetingPaths.

Lemma same_stem_same_output_witness :
  out_path (output_record "tmp" (InputFile ("C:\subs\film" ++ "." ++ "srt")
                                   None "srt"))
  = out_path (output_record "tmp" (InputFile ("C:\subs\film" ++ "." ++ "sub")
                                     None "sub")).
Proof.
  apply same_stem_same_output; reflexivity.
Defined.

Lemma conversion_in_place_witness :
  exists bytes tag c c' src g new new' data,
    Disk.read Example.lone "C:\a.srt" = Ok bytes
    /\ sublib_detect (Sublib := Example.lib) Example.lone "C:\a.srt"
         (chardet_encoding (Platform := Example.platform) bytes) = Ok tag
    /\ adapter_of_tag tag = Some c
    /\ sub_new (Sublib := Example.lib) c Example.lone "C:\a.srt"
         (chardet_encoding (Platform := Example.platform) bytes) = Ok src
    /\ get_general_format src = Ok g
    /\ adapter_of_tag "srt" = Some c'
    /\ sub_new c' Example.lone "" (Some "") = Ok new
    /\ set_from_general_format new g = Ok new'
    /\ text_encode (Platform := Example.platform)
         (chardet_encoding (Platform := Example.platform) bytes)
         (written_text new') = Ok data
    /\ Disk.read
         (Directory [("C:", Directory [("a.srt", RegFile Example.a_data)])])
         "C:\a.srt" = Ok data.
Proof.
  apply (conversion_in_place (P := Example.platform) (L := Example.lib)
           "C:\a.srt" "srt" "C:\a" None Example.lone_world
           (mkWorld
              (Directory [("C:", Directory [("a.srt", RegFile Example.a_data)])])
              None CRITICAL [])).
  - simpl. tauto.
  - reflexivity.
  - reflexivity.
  - vm_compute. discriminate.
  - reflexivity.
Defined.

(** ** A log file that can not be opened *)

Section ClosedLog.

Context {P : Platform} {L : Sublib}.

(** When the log file can not be opened, [basicConfig] raises before the
    path is looked at: whatever the command and the path, the run reports
    an unknown error on the standard output and ends with status 0; the
    disk and the log are as they were. *)
Theorem unopenable_log_is_an_unknown_error
    (arguments : Namespace) (path : string) (w : World)
    (Hpath : path_argument arguments = Some path)
    (Hclosed : log_opens (log_file arguments) = false) :
  run arguments w
  = (Outcome 0 None,
     mkWorld (disk w) (logfile w) (log_level w)
       (stdout w ++ ["An unknown error has occurred:";
                     exc_info (OSError (log_file arguments))])%list).
Proof.
  assert (Hargs : ns_path arguments w = (Ok path, w)
                  /\ ns_log arguments w = (Ok (log_option arguments), w)).
  { destruct arguments; cbn in *; try discriminate;
      injection Hpath as ->; auto. }
  destruct Hargs as [Hp Hl].
  assert (Hmain : main arguments w
                  = (Raise (OSError (log_file arguments)), w)).
  { unfold main.
    rewrite (bind_step _ _ _ _ _ Hp), (bind_step _ _ _ _ _ Hl).
    apply bind_raise. now apply logger_setup_fails. }
  unfold run. rewrite Hmain. cbn. now rewrite <- app_assoc.
Qed.

End ClosedLog.

Lemma unopenable_log_is_an_unknown_error_witness :
  run (P := Example.platform) (L := Example.lib)
    (Detect "C:\subs" (Some "C:\nodir\x.log")) Example.world
  = (Outcome 0 None,
     mkWorld Example.root None 0
       ([] ++ ["An unknown error has occurred:"; "exception"])%list).
Proof.
  exact (unopenable_log_is_an_unknown_error (P := Example.platform)
           (L := Example.lib) (Detect "C:\subs" (Some "C:\nodir\x.log"))
           "C:\subs" Example.world eq_refl eq_refl).
Defined.
